(** * VoFo music API (app.py): accounts, liked songs and catalog pass-through

    A shallow embedding of the request handlers of [app.py] and of the two
    mapped classes [User] and [LikedSong], followed by the properties the
    service specification states about them.

    Conventions of the embedding.
    - A request body ([data: dict]) is a finite map from keys to JSON scalars.
      A [str] is the string of its UTF-8 bytes.
    - The relational store behind a [Session] is a pair of tables, each a list
      of rows in table order, with the two id sequences of the primary keys.
      The constraints declared on the mapped classes (primary keys,
      [unique=True] on [users.username], [ForeignKey("users.id")] on
      [liked_songs.user_id]) are checked when an insert is committed.
      A string with a NUL character cannot be bound, a username that is
      no string cannot be compared, title, artist and thumbnail are stored
      as text, and an account id and the ids the sequences give out must fit
      the integer column. The cast of a string [user_id] to an integer in
      the lookup of a like is not modelled: the statements about likes are
      about integer or null account ids and string track ids. Nor is the
      size of a row of the index on [users.username]: the statements about
      a registration that succeeds are about usernames that fit it.
    - A handler is a function from the session to an outcome and the session
      after it: a returned value, an [HTTPException], or an exception that
      nothing catches (which the framework answers with status 500).
    - Both tables are taken to exist as the mapped classes declare them.
    - [bcrypt] is a parameter of the development: two partial functions. *)

From Stdlib Require Import ZArith Lia.
From stdpp Require Import base option list gmap strings pretty.

Local Open Scope string_scope.
Local Open Scope list_scope.
Local Open Scope nat_scope.

(** ** Python values and outcomes *)

(** JSON scalars of a request body and of the columns they are bound to. *)
Inductive jval : Type :=
  | JNull
  | JBool (b : bool)
  | JInt (z : Z)
  | JStr (s : string).

Global Instance jval_eq_dec : EqDecision jval.
Proof. solve_decision. Defined.

(** Truth value of an object, as [not x] and [if x] test it. *)
Definition truthy (v : jval) : bool :=
  match v with
  | JNull => false
  | JBool b => b
  | JInt z => negb (Z.eqb z 0)
  | JStr s => negb (String.eqb s "")
  end.

Inductive exn : Type :=
  | KeyError (key : string)
  | TypeError
  | IndexError
  | AttributeError
  | ValueError
  | ProgrammingError
  | DataError
  | IntegrityError (constraint : string)
  | ServiceError (msg : string).

Inductive outcome (A : Type) : Type :=
  | Return (a : A)
  | HTTPException (status_code : Z) (detail : string)
  | Raise (e : exn).
Global Arguments Return {A} a.
Global Arguments HTTPException {A} status_code detail.
Global Arguments Raise {A} e.

(** Status line the framework sends for an outcome. *)
Definition http_status {A} (o : outcome A) : Z :=
  match o with
  | Return _ => 200
  | HTTPException s _ => s
  | Raise _ => 500
  end.

Abbreviation dict := (gmap string jval).

(** ** Mapped classes and the store *)

Module User.
Record t : Type := mk { id : Z; username : jval; password : string }.
End User.

Module LikedSong.
Record t : Type := mk {
  id : Z;
  user_id : jval;
  song_id : jval;
  title : jval;
  artist : jval;
  thumbnail : jval }.
End LikedSong.

Global Instance User_eq_dec : EqDecision User.t.
Proof. solve_decision. Defined.
Global Instance LikedSong_eq_dec : EqDecision LikedSong.t.
Proof. solve_decision. Defined.

Record Session : Type := mkSession {
  users : list User.t;
  liked_songs : list LikedSong.t;
  users_id_seq : Z;
  liked_songs_id_seq : Z }.

(** A database with both tables empty and both sequences at their start. *)
Definition empty_db : Session :=
  {| users := []; liked_songs := []; users_id_seq := 1; liked_songs_id_seq := 1 |}.

(** ** The handler monad: session passing with exceptions *)

Definition Handler (A : Type) : Type := Session → outcome A * Session.

Global Instance Handler_ret : MRet Handler := λ A a db, (Return a, db).
Global Instance Handler_bind : MBind Handler := λ A B f m db,
  match m db with
  | (Return a, db') => f a db'
  | (HTTPException s d, db') => (HTTPException s d, db')
  | (Raise e, db') => (Raise e, db')
  end.

Definition raise_http {A} (status_code : Z) (detail : string) : Handler A :=
  λ db, (HTTPException status_code detail, db).
Definition raise {A} (e : exn) : Handler A := λ db, (Raise e, db).

(** [data.get(k)]: [None] when the key is missing. *)
Definition dict_get (data : dict) (k : string) : jval :=
  default JNull (data !! k).

(** [data[k]]: [KeyError] when the key is missing. *)
Definition subscript (data : dict) (k : string) : Handler jval :=
  match data !! k with
  | Some v => mret v
  | None => raise (KeyError k)
  end.

(** ** Queries and commits *)

(** A [str] the driver can bind has no NUL character; binding one that has
    raises [ValueError] before anything is sent. *)
Fixpoint has_nul (s : string) : bool :=
  match s with
  | EmptyString => false
  | String c rest => Ascii.eqb c Ascii.zero || has_nul rest
  end.

Definition bindable (v : jval) : bool :=
  match v with
  | JStr s => negb (has_nul s)
  | _ => true
  end.

(** What a [String] column holds after an insert of a bound value: a number
    and a boolean are stored as their text. *)
Definition as_text (v : jval) : jval :=
  match v with
  | JNull => JNull
  | JBool b => JStr (if b then "true" else "false")
  | JInt z => JStr (pretty z)
  | JStr s => JStr s
  end.

(** Values an [Integer] column can hold. *)
Definition int4 (z : Z) : bool :=
  (-2147483648 <=? z)%Z && (z <=? 2147483647)%Z.

(** [db.query(User).filter(User.username == name).first()]. A number or a
    boolean cannot be compared with the [String] column
    ([ProgrammingError]); [None] is compared with [IS NULL]. *)
Definition first_user (name : jval) : Handler (option User.t) :=
  λ db,
    match name with
    | JInt _ | JBool _ => (Raise ProgrammingError, db)
    | _ =>
        if bindable name
        then (Return (head (filter (λ u, User.username u = name) (users db))), db)
        else (Raise ValueError, db)
    end.

(** Rows of [liked_songs] selected by
    [filter(LikedSong.user_id == uid, LikedSong.song_id == sid)]. *)
Definition like_matches (uid sid : jval) (l : LikedSong.t) : Prop :=
  LikedSong.user_id l = uid ∧ LikedSong.song_id l = sid.

Global Instance like_matches_dec uid sid l : Decision (like_matches uid sid l).
Proof. unfold like_matches. apply _. Defined.

(** The first such row. The comparison is that of the bound values, as the
    server makes it for an integer or null [user_id] and a string [song_id]
    without NUL; the statements about what a like answers are about such
    bodies. *)
Definition first_like (uid sid : jval) : Handler (option LikedSong.t) :=
  λ db, (Return (head (filter (like_matches uid sid) (liked_songs db))), db).

(** [db.query(LikedSong).filter(LikedSong.user_id == uid).all()] *)
Definition all_likes (uid : jval) : Handler (list LikedSong.t) :=
  λ db, (Return (filter (λ l, LikedSong.user_id l = uid) (liked_songs db)), db).

(** [unique=True] on [users.username]: NULLs apart, no two rows share one. *)
Definition username_free (name : jval) (db : Session) : bool :=
  bool_decide (name = JNull) ||
  bool_decide (Forall (λ u, User.username u ≠ name) (users db)).


(** [ForeignKey("users.id")] on [liked_songs.user_id]: NULL or the id of a
    row of [users]. *)
Definition references_user (uid : jval) (db : Session) : bool :=
  bool_decide (uid = JNull) ||
  bool_decide (Exists (λ u, JInt (User.id u) = uid) (users db)).

(** [db.add(User(username=name, password=pw)); db.commit()]. The id is drawn
    from the sequence, which a refused insert consumes all the same; a
    sequence that has no id left for the integer column gives none
    ([DataError]). *)
Definition add_user (name : jval) (pw : string) : Handler () := λ db,
  let i := users_id_seq db in
  if negb (int4 i) then (Raise DataError, db)
  else if username_free name db then
    (Return (),
     {| users := users db ++ [User.mk i name pw];
        liked_songs := liked_songs db;
        users_id_seq := i + 1;
        liked_songs_id_seq := liked_songs_id_seq db |})
  else
    (Raise (IntegrityError "users_username_key"),
     {| users := users db;
        liked_songs := liked_songs db;
        users_id_seq := i + 1;
        liked_songs_id_seq := liked_songs_id_seq db |}).

(** [db.add(LikedSong(...)); db.commit()]. The driver binds the values
    first ([ValueError] for a string with NUL); the server then refuses an
    integer that does not fit the column ([DataError], before an id is
    drawn), draws the id, if the sequence has one left for the integer
    column ([DataError] if not), and checks the foreign key. Title, artist
    and thumbnail are stored as text. *)
Definition add_like (uid sid ti ar th : jval) : Handler () := λ db,
  let i := liked_songs_id_seq db in
  if negb (bindable sid && bindable ti && bindable ar && bindable th) then
    (Raise ValueError, db)
  else if (if uid is JInt z then negb (int4 z) else false) || negb (int4 i) then
    (Raise DataError, db)
  else if references_user uid db then
    (Return (),
     {| users := users db;
        liked_songs :=
          liked_songs db ++
          [LikedSong.mk i uid sid (as_text ti) (as_text ar) (as_text th)];
        users_id_seq := users_id_seq db;
        liked_songs_id_seq := i + 1 |})
  else
    (Raise (IntegrityError "liked_songs_user_id_fkey"),
     {| users := users db;
        liked_songs := liked_songs db;
        users_id_seq := users_id_seq db;
        liked_songs_id_seq := i + 1 |}).

(** [db.delete(existing); db.commit()]: the row is deleted by primary key. *)
Definition delete_like (existing : LikedSong.t) : Handler () := λ db,
  (Return (),
   {| users := users db;
      liked_songs :=
        filter (λ l, LikedSong.id l ≠ LikedSong.id existing) (liked_songs db);
      users_id_seq := users_id_seq db;
      liked_songs_id_seq := liked_songs_id_seq db |}).

(** ** Handlers *)

Section Handlers.

(** [bcrypt.hashpw(password, salt)] and [bcrypt.checkpw(password, hashed)]
    on the decoded strings; [None] when the library raises [ValueError]
    (a password it does not take, a stored value that is no hash). *)
Variable hashpw : string → string → option string.
Variable checkpw : string → string → option bool.

(** [hash_password]; [salt] is what [bcrypt.gensalt()] drew. Only a [str]
    has [encode]. *)
Definition hash_password (salt : string) (password : jval) : Handler string :=
  match password with
  | JStr p =>
      match hashpw p salt with
      | Some hashed => mret hashed
      | None => raise ValueError
      end
  | _ => raise AttributeError
  end.

Definition verify_password (password : jval) (hashed : string) : Handler bool :=
  match password with
  | JStr p =>
      match checkpw p hashed with
      | Some ok => mret ok
      | None => raise ValueError
      end
  | _ => raise AttributeError
  end.

(** [POST /api/register] *)
Definition register (salt : string) (data : dict) : Handler dict :=
  if negb (truthy (dict_get data "username")) || negb (truthy (dict_get data "password"))
  then raise_http 400 "Username and password required"
  else
    name ← subscript data "username";
    existing ← first_user name;
    if existing is Some _ then raise_http 400 "Username already exists"
    else
      name ← subscript data "username";
      password ← subscript data "password";
      hashed ← hash_password salt password;
      add_user name hashed;;
      mret ({[ "success" := JBool true ]} : dict).

(** [POST /api/login] *)
Definition login (data : dict) : Handler dict :=
  name ← subscript data "username";
  user ← first_user name;
  match user with
  | None => raise_http 401 "Invalid credentials"
  | Some u =>
      password ← subscript data "password";
      ok ← verify_password password (User.password u);
      if (ok : bool) then
        mret (<[ "success" := JBool true ]>
              (<[ "user_id" := JInt (User.id u) ]>
               ({[ "username" := User.username u ]} : dict)))
      else raise_http 401 "Invalid credentials"
  end.

(** [POST /api/like] *)
Definition toggle_like (data : dict) : Handler dict :=
  uid ← subscript data "user_id";
  sid ← subscript data "song_id";
  existing ← first_like uid sid;
  match existing with
  | Some row =>
      delete_like row;;
      mret ({[ "status" := JStr "unliked" ]} : dict)
  | None =>
      uid ← subscript data "user_id";
      sid ← subscript data "song_id";
      ti ← subscript data "title";
      ar ← subscript data "artist";
      th ← subscript data "thumbnail";
      add_like uid sid ti ar th;;
      mret ({[ "status" := JStr "liked" ]} : dict)
  end.

(** One element of the list [GET /api/liked/{user_id}] returns. *)
Definition liked_entry (l : LikedSong.t) : dict :=
  <[ "id" := LikedSong.song_id l ]>
  (<[ "title" := LikedSong.title l ]>
   (<[ "artist" := LikedSong.artist l ]>
    ({[ "thumbnail" := LikedSong.thumbnail l ]} : dict))).

(** [GET /api/liked/{user_id}] *)
Definition get_liked (user_id : Z) : Handler (list dict) :=
  likes ← all_likes (JInt user_id);
  mret (liked_entry <$> likes).

End Handlers.

(** ** The catalog client and the music routes *)

(** Objects the catalog client returns (decoded JSON). *)
#[warnings="-register-all"] Inductive pyval : Type :=
  | PNone
  | PBool (b : bool)
  | PInt (z : Z)
  | PStr (s : string)
  | PList (items : list pyval)
  | PDict (entries : list (string * pyval)).

Global Instance outcome_ret : MRet outcome := λ A a, Return a.
Global Instance outcome_bind : MBind outcome := λ A B f m,
  match m with
  | Return a => f a
  | HTTPException s d => HTTPException s d
  | Raise e => Raise e
  end.

(** [try: body except Exception: handler]; an [HTTPException] is an
    [Exception] too. *)
Definition try_except {A} (body : outcome A) (handler : outcome A) : outcome A :=
  match body with
  | Return a => Return a
  | _ => handler
  end.

(** Value stored under a key of a dictionary display. *)
Fixpoint assoc (k : string) (entries : list (string * pyval)) : option pyval :=
  match entries with
  | [] => None
  | (k', v) :: rest => if decide (k' = k) then Some v else assoc k rest
  end.

(** [v[k]] for a string key. *)
Definition getitem (v : pyval) (k : string) : outcome pyval :=
  match v with
  | PDict entries =>
      match assoc k entries with
      | Some x => Return x
      | None => Raise (KeyError k)
      end
  | _ => Raise TypeError
  end.

(** Position an index denotes in a sequence of length [n]: negative indices
    count from the end. *)
Definition position (n : nat) (i : Z) : option nat :=
  let j := (if decide (i < 0) then i + Z.of_nat n else i)%Z in
  if decide (0 ≤ j < Z.of_nat n)%Z then Some (Z.to_nat j) else None.

(** [v[i]] for an integer index. The keys of a decoded object are strings. *)
Definition index (v : pyval) (i : Z) : outcome pyval :=
  match v with
  | PList items =>
      match position (length items) i with
      | Some j => match items !! j with Some x => Return x | None => Raise IndexError end
      | None => Raise IndexError
      end
  | PStr s =>
      match position (String.length s) i with
      | Some j => Return (PStr (String.substring j 1 s))
      | None => Raise IndexError
      end
  | PDict _ => Raise (KeyError (pretty i))
  | _ => Raise TypeError
  end.

(** [v[:n]]. A dictionary raises here too ([TypeError], or [KeyError]
    from Python 3.12 on); both routes catch either. *)
Definition slice_to (v : pyval) (n : nat) : outcome pyval :=
  match v with
  | PList items => Return (PList (take n items))
  | PStr s => Return (PStr (String.substring 0 n s))
  | _ => Raise TypeError
  end.

(** Characters of a string, each a string of length one. *)
Fixpoint chars (s : string) : list pyval :=
  match s with
  | EmptyString => []
  | String c rest => PStr (String c EmptyString) :: chars rest
  end.

(** Elements [for x in v] runs over. *)
Definition iterate (v : pyval) : outcome (list pyval) :=
  match v with
  | PList items => Return items
  | PStr s => Return (chars s)
  | PDict entries => Return ((λ kv, PStr kv.1) <$> entries)
  | _ => Raise TypeError
  end.

(** [[f(x) for x in xs]] *)
Fixpoint comprehension {A B} (f : A → outcome B) (xs : list A) : outcome (list B) :=
  match xs with
  | [] => Return []
  | x :: rest =>
      y ← f x;
      ys ← comprehension f rest;
      mret (y :: ys)
  end.

Module YTMusic.
(** The two calls of the client the routes use; [search] is
    [search(q, filter="songs")]. *)
Record t : Type := mk {
  get_charts : string → outcome pyval;
  search : string → outcome pyval }.
End YTMusic.

(** What a music route returns: the list built by the comprehension, or the
    pair of an error payload and a number. *)
Inductive music_result : Type :=
  | Songs (items : list pyval)
  | ErrorPair (payload : pyval) (code : Z).

(** The dictionary display both music routes build for one catalog item. *)
Definition song_entry (s : pyval) : outcome pyval :=
  vid ← getitem s "videoId";
  ti ← getitem s "title";
  artists ← getitem s "artists";
  a ← index artists 0;
  name ← getitem a "name";
  thumbnails ← getitem s "thumbnails";
  th ← index thumbnails (-1);
  url ← getitem th "url";
  mret (PDict [("id", vid); ("title", ti); ("artist", name); ("thumbnail", url)]).

Definition service_unavailable : music_result :=
  ErrorPair (PDict [("error", PStr "YouTube Music service unavailable")]) 503.

(** [GET /api/trending]; [yt] is [None] when the client failed to start. *)
Definition trending (yt : option YTMusic.t) : outcome music_result :=
  match yt with
  | None => Return service_unavailable
  | Some client =>
      try_except
        (charts ← YTMusic.get_charts client "IN";
         by_kind ← getitem charts "songs";
         songs ← getitem by_kind "items";
         top ← slice_to songs 15;
         xs ← iterate top;
         entries ← comprehension song_entry xs;
         mret (Songs entries))
        (Return (Songs []))
  end.

(** [GET /api/search?q=] *)
Definition search (yt : option YTMusic.t) (q : string) : outcome music_result :=
  match yt with
  | None => Return service_unavailable
  | Some client =>
      try_except
        (results ← YTMusic.search client q;
         xs ← iterate results;
         entries ← comprehension song_entry xs;
         mret (Songs entries))
        (Return (Songs []))
  end.

(** ** Requests, invariants and the stores of the examples *)

Section Service.

Variable hashpw : string → string → option string.
Variable checkpw : string → string → option bool.

Inductive request : Type :=
  | Register (salt : string) (data : dict)
  | Login (data : dict)
  | Like (data : dict)
  | Liked (user_id : Z).

(** The store after one request. *)
Definition serve (r : request) (db : Session) : Session :=
  match r with
  | Register salt data => (register hashpw salt data db).2
  | Login data => (login checkpw data db).2
  | Like data => (toggle_like data db).2
  | Liked user_id => (get_liked user_id db).2
  end.

(** The store after a sequence of requests, none overlapping another. *)
Definition run (rs : list request) (db : Session) : Session :=
  foldl (λ db r, serve r db) db rs.


(** Bodies posted to [/api/like] one after the other: the store at the end
    and the answer to the last call. *)
Definition toggle_each (bodies : list dict) (db : Session)
  : option (outcome dict) * Session :=
  foldl (λ st data, (Some (toggle_like data st.2).1, (toggle_like data st.2).2))
        (None, db) bodies.

End Service.

(** Rows of [liked_songs] for one account and one track. *)
Definition likes_of (uid sid : jval) (db : Session) : list LikedSong.t :=
  filter (like_matches uid sid) (liked_songs db).

(** At most one row for every account and track. *)
Definition at_most_one_like (db : Session) : Prop :=
  ∀ uid sid, length (likes_of uid sid db) ≤ 1.

(** What the primary keys, the sequences and the unique constraint
    guarantee of any store. *)
Record wf (db : Session) : Prop := mk_wf {
  wf_user_ids : NoDup (User.id <$> users db);
  wf_usernames : NoDup (User.username <$> users db);
  wf_users_seq : Forall (λ u, (User.id u < users_id_seq db)%Z) (users db);
  wf_like_ids : NoDup (LikedSong.id <$> liked_songs db);
  wf_likes_seq :
    Forall (λ l, (LikedSong.id l < liked_songs_id_seq db)%Z) (liked_songs db) }.

(** A request body of [/api/like] with all five keys. *)
Definition like_body (uid : Z) (sid : string) (ti ar th : jval) : dict :=
  <[ "user_id" := JInt uid ]>
  (<[ "song_id" := JStr sid ]>
   (<[ "title" := ti ]>
    (<[ "artist" := ar ]>
     ({[ "thumbnail" := th ]} : dict)))).


Definition liked : dict := {[ "status" := JStr "liked" ]}.
Definition unliked : dict := {[ "status" := JStr "unliked" ]}.

(** A body of [/api/like] that carries these five values; other keys may
    be present. *)
Record like_fields (data : dict) (uid : Z) (sid : string) (ti ar th : jval)
  : Prop := mk_like_fields {
  lf_user_id : data !! "user_id" = Some (JInt uid);
  lf_song_id : data !! "song_id" = Some (JStr sid);
  lf_title : data !! "title" = Some ti;
  lf_artist : data !! "artist" = Some ar;
  lf_thumbnail : data !! "thumbnail" = Some th }.

(** Values the store takes for a like: an account id that fits the integer
    column, a track id and metadata the driver can bind. *)
Definition storable (uid : Z) (sid : string) (ti ar th : jval) : bool :=
  int4 uid && negb (has_nul sid) && bindable ti && bindable ar && bindable th.

(** The sequence whose next value is [next] has [n] more ids for an integer
    column. *)
Definition ids_left (n : nat) (next : Z) : bool :=
  (-2147483648 <=? next)%Z && (next + Z.of_nat n <=? 2147483648)%Z.

(** A body of [/api/like] for this account and track, with metadata the
    driver can bind. *)
Definition likes_pair (uid : Z) (sid : string) (data : dict) : Prop :=
  ∃ ti ar th,
    like_fields data uid sid ti ar th ∧
    bindable ti = true ∧ bindable ar = true ∧ bindable th = true.


(** An account with this id exists. *)
Definition account_exists (uid : Z) (db : Session) : Prop :=
  Exists (λ u, User.id u = uid) (users db).

(** The store with another [liked_songs] table. *)
Definition with_likes (db : Session) (rows : list LikedSong.t) : Session :=
  {| users := users db;
     liked_songs := rows;
     users_id_seq := users_id_seq db;
     liked_songs_id_seq := liked_songs_id_seq db |}.

(** The store after [liked_songs_id_seq] gave out one id. *)
Definition next_like_id (db : Session) : Session :=
  {| users := users db;
     liked_songs := liked_songs db;
     users_id_seq := users_id_seq db;
     liked_songs_id_seq := liked_songs_id_seq db + 1 |}.

(** The store with one more account. *)
Definition with_user (db : Session) (u : User.t) : Session :=
  {| users := users db ++ [u];
     liked_songs := liked_songs db;
     users_id_seq := users_id_seq db + 1;
     liked_songs_id_seq := liked_songs_id_seq db |}.

(** The store after the pair was liked once more than it was unliked. *)
Definition liked_once (uid : Z) (sid : string) (ti ar th : jval)
    (db : Session) : Session :=
  next_like_id (with_likes db
    (liked_songs db ++
     [LikedSong.mk (liked_songs_id_seq db) (JInt uid) (JStr sid) ti ar th])).

(** One account, ["alice"], and no liked song. *)
Definition alice_db (hashed : string) : Session :=
  {| users := [User.mk 1 (JStr "alice") hashed];
     liked_songs := [];
     users_id_seq := 2;
     liked_songs_id_seq := 1 |}.

(** Two rows for account 1 and track ["t1"], as two overlapping toggles can
    leave them, and one row of another track. *)
Definition doubled_db : Session :=
  {| users := [User.mk 1 (JStr "alice") "h"];
     liked_songs :=
       [LikedSong.mk 1 (JInt 1) (JStr "t1") (JStr "A") (JStr "B") (JStr "C");
        LikedSong.mk 2 (JInt 1) (JStr "t2") (JStr "D") (JStr "E") (JStr "F");
        LikedSong.mk 3 (JInt 1) (JStr "t1") (JStr "A") (JStr "B") (JStr "C")];
     users_id_seq := 2;
     liked_songs_id_seq := 4 |}.

(** Two accounts and no liked song. *)
Definition alice_bob_db : Session :=
  {| users := [User.mk 1 (JStr "alice") "h"; User.mk 2 (JStr "bob") "g"];
     liked_songs := [];
     users_id_seq := 3;
     liked_songs_id_seq := 1 |}.

Ltac solve_wf :=
  split; simpl;
  repeat first
    [ apply NoDup_nil_2
    | apply NoDup_cons_2;
        [rewrite ?not_elem_of_cons; repeat split; (done || apply not_elem_of_nil)|]
    | apply Forall_nil_2
    | apply Forall_cons_2; [simpl; lia|] ].

Definition success : dict := {[ "success" := JBool true ]}.

(** What [login] returns for an account. *)
Definition identity (a : User.t) : dict :=
  <[ "success" := JBool true ]>
  (<[ "user_id" := JInt (User.id a) ]>
   ({[ "username" := User.username a ]} : dict)).

Definition duplicate_username {A} : outcome A :=
  HTTPException 400 "Username already exists".
Definition invalid_credentials {A} : outcome A :=
  HTTPException 401 "Invalid credentials".

(** Some account has this username. *)
Definition username_taken (u : string) (db : Session) : Prop :=
  Exists (λ a, User.username a = JStr u) (users db).

(** A stand-in for [bcrypt] in the examples: the hash is the password
    followed by the salt, and checking compares the leading part. As
    [bcrypt] 5 does, it refuses a password of more than 72 bytes. *)
Definition toy_hashpw (password salt : string) : option string :=
  if 72 <? String.length password then None
  else Some (String.append password salt).
Definition toy_checkpw (password hashed : string) : option bool :=
  if 72 <? String.length password then None
  else Some (String.prefix password hashed).



(** Rows of [liked_songs] of one account. *)
Definition rows_of (uid : Z) (db : Session) : list LikedSong.t :=
  filter (λ l, LikedSong.user_id l = JInt uid) (liked_songs db).

(** The record [get_liked] returns for a track. *)
Definition song_dict (sid ti ar th : jval) : dict :=
  <[ "id" := sid ]>
  (<[ "title" := ti ]>
   (<[ "artist" := ar ]>
    ({[ "thumbnail" := th ]} : dict))).

(** A store where account 1 likes track ["t1"]. *)
Definition alice_likes_db : Session :=
  {| users := [User.mk 1 (JStr "alice") "h"];
     liked_songs :=
       [LikedSong.mk 1 (JInt 1) (JStr "t1") (JStr "A") (JStr "B") (JStr "C")];
     users_id_seq := 2;
     liked_songs_id_seq := 2 |}.

(** A body of [/api/like] with the two keys of the pair and no other. *)
Definition pair_only (uid : Z) (sid : string) : dict :=
  <[ "user_id" := JInt uid ]> ({[ "song_id" := JStr sid ]} : dict).

(** An outcome that is not a returned value. *)
Definition failed {A} (o : outcome A) : Prop :=
  match o with
  | Return _ => False
  | _ => True
  end.

(** A client whose calls all fail, as on a network error. *)
Definition broken_client : YTMusic.t :=
  YTMusic.mk (λ _, Raise (ServiceError "connection refused"))
             (λ _, Raise (ServiceError "connection refused")).

(** The record of a catalog item: its id and title, the name of the first
    of its artists and the url of the last of its thumbnails. *)
Inductive track_entry : pyval → pyval → Prop :=
  | track_entry_intro fields vid ti a more name thumbs th url :
      assoc "videoId" fields = Some vid →
      assoc "title" fields = Some ti →
      assoc "artists" fields = Some (PList (a :: more)) →
      getitem a "name" = Return name →
      assoc "thumbnails" fields = Some (PList thumbs) →
      last thumbs = Some th →
      getitem th "url" = Return url →
      track_entry (PDict fields)
        (PDict [("id", vid); ("title", ti); ("artist", name); ("thumbnail", url)]).

(** A chart of sixteen items with one artist and one thumbnail each. *)
Definition chart_item (n : Z) : pyval :=
  PDict [("videoId", PInt n); ("title", PStr "song");
         ("artists", PList [PDict [("name", PStr "first")];
                            PDict [("name", PStr "second")]]);
         ("thumbnails", PList [PDict [("url", PStr "small")];
                               PDict [("url", PStr "large")]])].

Definition chart_entry (n : Z) : pyval :=
  PDict [("id", PInt n); ("title", PStr "song");
         ("artist", PStr "first"); ("thumbnail", PStr "large")].

Definition sixteen : list Z := [1; 2; 3; 4; 5; 6; 7; 8; 9; 10; 11; 12; 13; 14; 15; 16]%Z.

Definition chart_client : YTMusic.t :=
  YTMusic.mk
    (λ _, Return (PDict [("songs", PDict [("items", PList (chart_item <$> sixteen))])]))
    (λ _, Return (PList [])).

(** ** Start-up configuration, the session dependency and the health route *)

(** [s[n:]] *)
Fixpoint string_drop (n : nat) (s : string) : string :=
  match n, s with
  | O, _ => s
  | S m, String _ rest => string_drop m rest
  | S _, EmptyString => EmptyString
  end.

(** [s.replace(old, new, 1)]: the first occurrence from the left. *)
Fixpoint replace_first (old new s : string) {struct s} : string :=
  if String.prefix old s then
    String.append new (string_drop (String.length old) s)
  else
    match s with
    | EmptyString => EmptyString
    | String c rest => String c (replace_first old new rest)
    end.

(** [sub in s] *)
Fixpoint contains (sub s : string) {struct s} : bool :=
  String.prefix sub s ||
  match s with
  | EmptyString => false
  | String _ rest => contains sub rest
  end.

Section Configuration.

(** The literal the module falls back to when the environment has no
    [DATABASE_URL]. *)
Variable fallback : string.

(** [DATABASE_URL] as [create_engine] receives it; [env] is
    [os.environ.get("DATABASE_URL")]. *)
Definition database_url (env : option string) : string :=
  let url :=
    match env with
    | Some u => if String.eqb u "" then fallback else u
    | None => fallback
    end in
  if negb (String.eqb url "") && String.prefix "postgres://" url
  then replace_first "postgres://" "postgresql://" url
  else url.

End Configuration.

(** [connect_args] as [create_engine] receives it. *)
Definition connect_args (url : string) : gmap string string :=
  if contains "render.com" url || contains ".onrender.com" url
  then {[ "sslmode" := "require" ]}
  else ∅.

(** The session factory: the store its sessions read and write, and what
    [db.execute(text("SELECT 1")).scalar()] does on a fresh session. *)
Record sessionmaker : Type := mk_sessionmaker {
  open_session : Session;
  select_1 : outcome Z }.

(** [get_db], up to the [yield]. *)
Definition get_db (SessionLocal : option sessionmaker) : outcome Session :=
  match SessionLocal with
  | None => HTTPException 503 "Database service unavailable"
  | Some factory => Return (open_session factory)
  end.

(** A route with [db: Session = Depends(get_db)]: the dependency is solved
    before the handler runs. *)
Definition depends_get_db {A} (SessionLocal : option sessionmaker)
    (handler : Handler A) : outcome A :=
  db ← get_db SessionLocal;
  (handler db).1.

Section Health.

(** [str(e)] for the exceptions of the model. *)
Variable str : exn → string.

(** [str(e)] for what an outcome raised; an [HTTPException] prints its
    status and detail. *)
Definition raised_str {A} (o : outcome A) : string :=
  match o with
  | Return _ => ""
  | HTTPException s d => String.append (pretty s) (String.append ": " d)
  | Raise e => str e
  end.

(** [GET /health] *)
Definition health_check (SessionLocal : option sessionmaker)
    (yt : option YTMusic.t) : gmap string string :=
  let health_status : gmap string string :=
    <[ "status" := "healthy" ]>
    (<[ "database" :=
         if SessionLocal is Some _ then "connected" else "disconnected" ]>
     {[ "ytmusic" := if yt is Some _ then "initialized" else "unavailable" ]}) in
  let health_status :=
    match SessionLocal with
    | Some factory =>
        match select_1 factory with
        | Return _ => health_status
        | o =>
            <[ "status" := "degraded" ]>
            (<[ "database" := String.append "error: " (raised_str o) ]>
             health_status)
        end
    | None => health_status
    end in
  match yt with
  | Some client =>
      match YTMusic.get_charts client "IN" with
      | Return _ => health_status
      | o =>
          <[ "status" := "degraded" ]>
          (<[ "ytmusic" := String.append "error: " (raised_str o) ]>
           health_status)
      end
  | None => health_status
  end.

End Health.

(** ** Further invariants *)

(** Every row of [liked_songs] has a NULL [user_id] or the id of an
    account. *)
Definition fk_integrity (db : Session) : Prop :=
  Forall (λ l, references_user (LikedSong.user_id l) db = true) (liked_songs db).

(** A body of [/api/like] for the NULL account. *)
Definition null_like_body (sid : string) (ti ar th : jval) : dict :=
  <[ "user_id" := JNull ]>
  (<[ "song_id" := JStr sid ]>
   (<[ "title" := ti ]>
    (<[ "artist" := ar ]>
     ({[ "thumbnail" := th ]} : dict)))).

(** A catalog item without thumbnails. *)
Definition bare_item : pyval :=
  PDict [("videoId", PInt 0); ("title", PStr "song");
         ("artists", PList [PDict [("name", PStr "first")]]);
         ("thumbnails", PList [])].

(** A client whose search finds twenty items. *)
Definition twenty_client : YTMusic.t :=
  YTMusic.mk
    (λ _, Raise (ServiceError "connection refused"))
    (λ _, Return (PList (chart_item <$> (sixteen ++ [17; 18; 19; 20]%Z)))).

(** A client whose results end in an item without thumbnails. *)
Definition flawed_client : YTMusic.t :=
  YTMusic.mk
    (λ _, Return (PDict [("songs",
             PDict [("items", PList ([chart_item 1; bare_item]))])]))
    (λ _, Return (PList [chart_item 1; bare_item])).

(** A factory whose probe fails. *)
Definition down_factory : sessionmaker :=
  mk_sessionmaker empty_db (Raise (ServiceError "connection lost")).

(** * Properties *)

(** ** Basic facts *)

Lemma like_body_fields uid sid ti ar th :
  like_fields (like_body uid sid ti ar th) uid sid ti ar th.
Proof. by split. Qed.


Lemma dict_get_Some (data : dict) k v :
  data !! k = Some v → dict_get data k = v.
Proof. unfold dict_get. by intros ->. Qed.

Lemma truthy_JStr s : s ≠ "" → truthy (JStr s) = true.
Proof.
  intros Hs. simpl. destruct (String.eqb_spec s ""); [done|reflexivity].
Qed.

Lemma Return_inj {A} (x y : A) : (Return x : outcome A) = Return y → x = y.
Proof. by intros [= ->]. Qed.

Lemma liked_ne_unliked : liked ≠ unliked.
Proof.
  intros Heq. apply (f_equal (λ d : dict, d !! "status")) in Heq.
  by vm_compute in Heq.
Qed.

Lemma references_user_int uid db :
  references_user (JInt uid) db = true ↔ account_exists uid db.
Proof.
  unfold references_user, account_exists.
  rewrite orb_true_iff, !bool_decide_eq_true.
  split.
  - intros [?|H]; [done|].
    eapply Exists_impl; [exact H|]. simpl. by intros u [= ->].
  - intros H. right. eapply Exists_impl; [exact H|]. simpl. by intros u ->.
Qed.

Lemma references_user_int_false uid db :
  references_user (JInt uid) db = false ↔ ¬ account_exists uid db.
Proof.
  rewrite <- references_user_int. destruct (references_user _ _); naive_solver.
Qed.

Lemma head_filter_None {A} (P : A → Prop) `{∀ x, Decision (P x)} (l : list A) :
  head (filter P l) = None ↔ filter P l = [].
Proof. destruct (filter P l); naive_solver. Qed.

Lemma head_filter_Some {A} (P : A → Prop) `{∀ x, Decision (P x)} (l : list A) x :
  head (filter P l) = Some x →
  ∃ l1 l2, l = l1 ++ x :: l2 ∧ P x ∧ filter P l1 = [].
Proof.
  induction l as [|a l IH]; [done|].
  rewrite filter_cons. destruct (decide (P a)) as [Ha|Ha].
  - intros [= ->]. by exists [], l.
  - intros (l1 & l2 & -> & Hx & Hl1)%IH.
    exists (a :: l1), l2. split; [done|]. split; [done|].
    rewrite filter_cons. by destruct (decide (P a)).
Qed.

(** *** The three paths of [toggle_like] *)

Lemma toggle_like_found data uid sid row db :
  data !! "user_id" = Some uid →
  data !! "song_id" = Some sid →
  head (likes_of uid sid db) = Some row →
  toggle_like data db =
    (Return unliked,
     with_likes db
       (filter (λ l, LikedSong.id l ≠ LikedSong.id row) (liked_songs db))).
Proof.
  intros Hu Hs Hrow.
  unfold toggle_like, mbind, Handler_bind, subscript, first_like.
  rewrite Hu, Hs. simpl.
  unfold likes_of in Hrow. rewrite Hrow. reflexivity.
Qed.

Lemma add_like_bound uid sid ti ar th db :
  bindable sid = true → bindable ti = true →
  bindable ar = true → bindable th = true →
  (∀ z, uid = JInt z → int4 z = true) →
  int4 (liked_songs_id_seq db) = true →
  add_like uid sid ti ar th db =
    if references_user uid db then
      (Return (),
       next_like_id (with_likes db
         (liked_songs db ++
          [LikedSong.mk (liked_songs_id_seq db) uid sid
             (as_text ti) (as_text ar) (as_text th)])))
    else
      (Raise (IntegrityError "liked_songs_user_id_fkey"), next_like_id db).
Proof.
  intros Hs Ht Ha Hth Hu Hseq. unfold add_like.
  rewrite Hs, Ht, Ha, Hth, Hseq. simpl.
  destruct uid as [|b|z|s']; try done.
  by rewrite (Hu z eq_refl).
Qed.

Lemma storable_inv uid sid ti ar th :
  storable uid sid ti ar th = true →
  int4 uid = true ∧ has_nul sid = false ∧
  bindable ti = true ∧ bindable ar = true ∧ bindable th = true.
Proof.
  unfold storable. rewrite !andb_true_iff, negb_true_iff. tauto.
Qed.

Lemma toggle_like_insert data uid sid ti ar th db :
  like_fields data uid sid ti ar th →
  storable uid sid ti ar th = true →
  int4 (liked_songs_id_seq db) = true →
  likes_of (JInt uid) (JStr sid) db = [] →
  references_user (JInt uid) db = true →
  toggle_like data db =
    (Return liked,
     next_like_id (with_likes db
       (liked_songs db ++
        [LikedSong.mk (liked_songs_id_seq db) (JInt uid) (JStr sid)
           (as_text ti) (as_text ar) (as_text th)]))).
Proof.
  intros [Hu Hs Ht Ha Hth] (Hi & Hn & Hbt & Hba & Hbh)%storable_inv
    Hseq Hnone Hfk.
  unfold toggle_like, mbind, Handler_bind, subscript, first_like.
  rewrite Hu, Hs. simpl.
  unfold likes_of in Hnone. rewrite Hnone. simpl.
  rewrite Ht, Ha, Hth. simpl.
  rewrite add_like_bound; [by rewrite Hfk|simpl; by rewrite Hn|done..| |done].
  by intros z [= <-].
Qed.

Lemma toggle_like_refused data uid sid ti ar th db :
  like_fields data uid sid ti ar th →
  storable uid sid ti ar th = true →
  int4 (liked_songs_id_seq db) = true →
  likes_of (JInt uid) (JStr sid) db = [] →
  references_user (JInt uid) db = false →
  toggle_like data db =
    (Raise (IntegrityError "liked_songs_user_id_fkey"), next_like_id db).
Proof.
  intros [Hu Hs Ht Ha Hth] (Hi & Hn & Hbt & Hba & Hbh)%storable_inv
    Hseq Hnone Hfk.
  unfold toggle_like, mbind, Handler_bind, subscript, first_like.
  rewrite Hu, Hs. simpl.
  unfold likes_of in Hnone. rewrite Hnone. simpl.
  rewrite Ht, Ha, Hth. simpl.
  rewrite add_like_bound; [by rewrite Hfk|simpl; by rewrite Hn|done..| |done].
  by intros z [= <-].
Qed.

(** *** Deleting by primary key *)

Lemma filter_id_fresh (rows : list LikedSong.t) i :
  i ∉ LikedSong.id <$> rows →
  filter (λ l, LikedSong.id l ≠ i) rows = rows.
Proof.
  induction rows as [|r rows IH]; [done|].
  rewrite fmap_cons, not_elem_of_cons. intros [Hr Hrows].
  rewrite filter_cons. destruct (decide (LikedSong.id r ≠ i)); [|done].
  by rewrite IH.
Qed.

Lemma delete_by_id (l1 l2 : list LikedSong.t) row :
  NoDup (LikedSong.id <$> (l1 ++ row :: l2)) →
  filter (λ l, LikedSong.id l ≠ LikedSong.id row) (l1 ++ row :: l2) = l1 ++ l2.
Proof.
  rewrite fmap_app, fmap_cons. intros Hnd.
  apply NoDup_app in Hnd as (_ & Hdisj & Hnd2).
  apply NoDup_cons in Hnd2 as [Hrow2 _].
  rewrite filter_app, filter_cons.
  destruct (decide (LikedSong.id row ≠ LikedSong.id row)); [done|].
  rewrite !filter_id_fresh; [done|done|].
  intros Hin. apply (Hdisj _ Hin). left.
Qed.

(** Rows that a filter keeps or drops, around one deleted row. *)
Lemma filter_delete_length {A} (P : A → Prop) `{∀ x, Decision (P x)}
    (l1 l2 : list A) x :
  P x → length (filter P (l1 ++ x :: l2)) = S (length (filter P (l1 ++ l2))).
Proof.
  intros Hx. rewrite !filter_app, filter_cons.
  destruct (decide (P x)); [|done]. rewrite !length_app. simpl. lia.
Qed.

Lemma filter_delete_other {A} (P : A → Prop) `{∀ x, Decision (P x)}
    (l1 l2 : list A) x :
  ¬ P x → filter P (l1 ++ x :: l2) = filter P (l1 ++ l2).
Proof.
  intros Hx. rewrite !filter_app, filter_cons.
  by destruct (decide (P x)).
Qed.

(** *** Every handler keeps the store well formed *)

Lemma wf_empty_db : wf empty_db.
Proof. split; simpl; constructor. Qed.

Lemma wf_next_like_id db : wf db → wf (next_like_id db).
Proof.
  intros [? ? ? ? Hseq]. split; simpl; try done.
  eapply Forall_impl; [exact Hseq|]. simpl. lia.
Qed.

Lemma wf_delete db i :
  wf db →
  wf (with_likes db (filter (λ l, LikedSong.id l ≠ i) (liked_songs db))).
Proof.
  intros [? ? ? Hids Hseq]. split; simpl; try done.
  - refine (sublist_NoDup _ _ Hids _). apply fmap_sublist, sublist_filter.
  - rewrite Forall_forall in Hseq. apply Forall_forall.
    intros l [_ Hl]%list_elem_of_filter. by apply Hseq.
Qed.

Lemma wf_insert_like db uid sid ti ar th :
  wf db →
  wf (next_like_id (with_likes db
        (liked_songs db ++
         [LikedSong.mk (liked_songs_id_seq db) uid sid ti ar th]))).
Proof.
  intros [? ? ? Hids Hseq]. split; simpl; try done.
  - rewrite fmap_app. simpl. apply NoDup_app. split; [done|]. split.
    + intros i Hi [->|[]%elem_of_nil]%elem_of_cons.
      apply list_elem_of_fmap in Hi as (l & Hl & Hin).
      rewrite Forall_forall in Hseq. specialize (Hseq _ Hin). lia.
    + apply NoDup_singleton.
  - apply Forall_app. split.
    + eapply Forall_impl; [exact Hseq|]. simpl. lia.
    + constructor; [simpl; lia|constructor].
Qed.

Lemma wf_with_user db name pw :
  wf db →
  Forall (λ u, User.username u ≠ name) (users db) →
  wf (with_user db (User.mk (users_id_seq db) name pw)).
Proof.
  intros [Hids Hnames Hseq ? ?] Hfree. split; simpl; try done.
  - rewrite fmap_app. simpl. apply NoDup_app. split; [done|]. split.
    + intros i Hi [->|[]%elem_of_nil]%elem_of_cons.
      apply list_elem_of_fmap in Hi as (u & Hu & Hin).
      rewrite Forall_forall in Hseq. specialize (Hseq _ Hin). lia.
    + apply NoDup_singleton.
  - rewrite fmap_app. simpl. apply NoDup_app. split; [done|]. split.
    + intros n Hn [->|[]%elem_of_nil]%elem_of_cons.
      apply list_elem_of_fmap in Hn as (u & Hu & Hin).
      rewrite Forall_forall in Hfree. by apply (Hfree _ Hin).
    + apply NoDup_singleton.
  - apply Forall_app. split.
    + eapply Forall_impl; [exact Hseq|]. simpl. lia.
    + constructor; [simpl; lia|constructor].
Qed.

(** The ways [add_like] can end. *)
Lemma add_like_cases uid sid ti ar th db :
  add_like uid sid ti ar th db = (Raise ValueError, db) ∨
  add_like uid sid ti ar th db = (Raise DataError, db) ∨
  (references_user uid db = false ∧
   add_like uid sid ti ar th db =
     (Raise (IntegrityError "liked_songs_user_id_fkey"), next_like_id db)) ∨
  (references_user uid db = true ∧
   bindable sid = true ∧ bindable ti = true ∧
   bindable ar = true ∧ bindable th = true ∧
   add_like uid sid ti ar th db =
     (Return (),
      next_like_id (with_likes db
        (liked_songs db ++
         [LikedSong.mk (liked_songs_id_seq db) uid sid
            (as_text ti) (as_text ar) (as_text th)])))).
Proof.
  unfold add_like.
  destruct (bindable sid) eqn:Hs, (bindable ti) eqn:Ht,
    (bindable ar) eqn:Ha, (bindable th) eqn:Hth; simpl; try by left.
  destruct (_ || negb (int4 (liked_songs_id_seq db))); [by right; left|].
  destruct (references_user uid db); [|by right; right; left].
  right; right; right. done.
Qed.

(** The three ways the lookup of a username can end. *)
Lemma first_user_cases name db :
  first_user name db = (Raise ProgrammingError, db) ∨
  first_user name db = (Raise ValueError, db) ∨
  first_user name db =
    (Return (head (filter (λ u, User.username u = name) (users db))), db).
Proof.
  unfold first_user. destruct name as [|b|z|s]; simpl; auto.
  destruct (has_nul s); simpl; auto.
Qed.

Lemma first_user_str u db :
  has_nul u = false →
  first_user (JStr u) db =
    (Return (head (filter (λ a, User.username a = JStr u) (users db))), db).
Proof. intros Hn. unfold first_user. simpl. by rewrite Hn. Qed.

(** The stores [toggle_like] can leave, whatever the body. *)
Lemma toggle_like_cases data db :
  let db' := (toggle_like data db).2 in
  db' = db ∨
  db' = next_like_id db ∨
  (∃ uid sid row,
     data !! "user_id" = Some uid ∧ data !! "song_id" = Some sid ∧
     head (likes_of uid sid db) = Some row ∧
     db' = with_likes db
             (filter (λ l, LikedSong.id l ≠ LikedSong.id row) (liked_songs db))) ∨
  (∃ uid sid ti ar th,
     data !! "user_id" = Some uid ∧ data !! "song_id" = Some sid ∧
     likes_of uid sid db = [] ∧
     db' = next_like_id (with_likes db
             (liked_songs db ++
              [LikedSong.mk (liked_songs_id_seq db) uid sid ti ar th]))).
Proof.
  unfold toggle_like, mbind, Handler_bind, subscript, first_like.
  destruct (data !! "user_id") as [uid|]; simpl; [|by left].
  destruct (data !! "song_id") as [sid|]; simpl; [|by left].
  destruct (head (filter (like_matches uid sid) (liked_songs db)))
    as [row|] eqn:Hhead; simpl.
  - right; right; left. by exists uid, sid, row.
  - destruct (data !! "title") as [ti|]; simpl; [|by left].
    destruct (data !! "artist") as [ar|]; simpl; [|by left].
    destruct (data !! "thumbnail") as [th|]; simpl; [|by left].
    destruct (add_like_cases uid sid ti ar th db)
      as [->|[->|[(_ & ->)|(_ & _ & _ & _ & _ & ->)]]]; simpl.
    + by left.
    + by left.
    + right; left. done.
    + right; right; right.
      exists uid, sid, (as_text ti), (as_text ar), (as_text th).
      split; [done|]. split; [done|]. split; [|done].
      by apply head_filter_None.
Qed.

(** The stores [register] can leave, whatever the body. *)
Lemma register_cases hashpw salt data db :
  let db' := (register hashpw salt data db).2 in
  db' = db ∨
  (∃ name pw, Forall (λ u, User.username u ≠ name) (users db) ∧
     db' = with_user db (User.mk (users_id_seq db) name pw)).
Proof.
  unfold register.
  destruct (negb (truthy (dict_get data "username")) ||
            negb (truthy (dict_get data "password"))) eqn:Hchk; [by left|].
  unfold mbind, Handler_bind, subscript.
  destruct (data !! "username") as [name|]; simpl; [|by left].
  destruct (first_user_cases name db) as [->|[->| -> ]]; [by left|by left|].
  destruct (head (filter (λ u, User.username u = name) (users db)))
    as [u|] eqn:Hhead; simpl; [by left|].
  destruct (data !! "password") as [password|]; simpl; [|by left].
  assert (Hfree : Forall (λ u, User.username u ≠ name) (users db)).
  { apply head_filter_None in Hhead. apply Forall_forall. intros u Hu Heq.
    assert (u ∈ filter (λ u, User.username u = name) (users db))
      by (by apply list_elem_of_filter).
    rewrite Hhead in *. by eapply elem_of_nil. }
  destruct password; simpl; try by left.
  destruct (hashpw s salt) as [hashed|]; simpl; [|by left].
  unfold add_user, username_free.
  destruct (int4 (users_id_seq db)); simpl; [|by left].
  rewrite (bool_decide_eq_true_2 _ Hfree), orb_true_r. simpl.
  right. by exists name, hashed.
Qed.

Lemma login_session checkpw data db : (login checkpw data db).2 = db.
Proof.
  unfold login, mbind, Handler_bind, subscript.
  destruct (data !! "username") as [name|]; simpl; [|done].
  destruct (first_user_cases name db) as [->|[->| -> ]]; [done|done|].
  destruct (head _) as [u|]; simpl; [|done].
  destruct (data !! "password") as [[]|]; simpl; try done.
  by destruct (checkpw _ _) as [[]|].
Qed.

Lemma get_liked_session user_id db : (get_liked user_id db).2 = db.
Proof. reflexivity. Qed.

Lemma toggle_like_wf data db : wf db → wf (toggle_like data db).2.
Proof.
  intros Hwf.
  destruct (toggle_like_cases data db)
    as [->|[->|[(uid & sid & row & _ & _ & _ & ->)
               |(uid & sid & ti & ar & th & _ & _ & _ & ->)]]].
  - done.
  - by apply wf_next_like_id.
  - by apply wf_delete.
  - by apply wf_insert_like.
Qed.

Lemma register_wf hashpw salt data db :
  wf db → wf (register hashpw salt data db).2.
Proof.
  intros Hwf.
  destruct (register_cases hashpw salt data db) as [->|(name & pw & Hfree & ->)].
  - done.
  - by apply wf_with_user.
Qed.

Lemma serve_wf hashpw checkpw r db : wf db → wf (serve hashpw checkpw r db).
Proof.
  destruct r; simpl.
  - apply register_wf.
  - by rewrite login_session.
  - apply toggle_like_wf.
  - done.
Qed.

Lemma run_wf hashpw checkpw rs db : wf db → wf (run hashpw checkpw rs db).
Proof.
  revert db. induction rs as [|r rs IH]; intros db Hwf; [done|].
  simpl. apply IH. by apply serve_wf.
Qed.

(** *** Likes of an account that exists: insert, then delete *)

Lemma likes_of_next_like_id uid sid db :
  likes_of uid sid (next_like_id db) = likes_of uid sid db.
Proof. reflexivity. Qed.

Lemma account_exists_next_like_id uid db :
  account_exists uid (next_like_id db) ↔ account_exists uid db.
Proof. reflexivity. Qed.

Lemma likes_of_liked_once uid sid ti ar th db :
  likes_of (JInt uid) (JStr sid) db = [] →
  likes_of (JInt uid) (JStr sid) (liked_once uid sid ti ar th db) =
    [LikedSong.mk (liked_songs_id_seq db) (JInt uid) (JStr sid) ti ar th].
Proof.
  intros Hnone. unfold likes_of in *. simpl.
  rewrite filter_app, Hnone, filter_cons. simpl.
  destruct (decide (like_matches _ _ _)) as [|Hn]; [done|].
  destruct Hn. by split.
Qed.

Lemma toggle_each_snoc bodies data db :
  toggle_each (bodies ++ [data]) db =
    (Some (toggle_like data (toggle_each bodies db).2).1,
     (toggle_like data (toggle_each bodies db).2).2).
Proof. unfold toggle_each. by rewrite foldl_snoc. Qed.

Lemma odd_length_snoc {A} (l : list A) x :
  Nat.odd (length (l ++ [x])) = negb (Nat.odd (length l)).
Proof.
  rewrite length_app. simpl. rewrite Nat.add_1_r, Nat.odd_succ.
  by rewrite <- Nat.negb_odd.
Qed.

Lemma ids_left_int4 n next :
  ids_left (S n) next = true → int4 next = true.
Proof.
  unfold ids_left, int4. rewrite !andb_true_iff, !Z.leb_le. lia.
Qed.

(** The store after likes of one pair by an account that exists: after an
    even number the table is back; after an odd number it has one more row,
    with the metadata of the last body. *)
Lemma toggle_each_state bodies uid sid db :
  wf db →
  account_exists uid db →
  int4 uid = true →
  has_nul sid = false →
  Forall (likes_pair uid sid) bodies →
  ids_left (length bodies) (liked_songs_id_seq db) = true →
  likes_of (JInt uid) (JStr sid) db = [] →
  wf (toggle_each bodies db).2 ∧
  users (toggle_each bodies db).2 = users db ∧
  (liked_songs_id_seq db ≤ liked_songs_id_seq (toggle_each bodies db).2
     ≤ liked_songs_id_seq db + Z.of_nat (length bodies))%Z ∧
  if Nat.odd (length bodies) then
    (toggle_each bodies db).1 = Some (Return liked) ∧
    ∃ i data ti ar th,
      last bodies = Some data ∧
      like_fields data uid sid ti ar th ∧
      liked_songs (toggle_each bodies db).2 =
        liked_songs db ++
        [LikedSong.mk i (JInt uid) (JStr sid)
           (as_text ti) (as_text ar) (as_text th)]
  else
    (bodies = [] ∨ (toggle_each bodies db).1 = Some (Return unliked)) ∧
    liked_songs (toggle_each bodies db).2 = liked_songs db.
Proof.
  intros Hwf Hacc Hint Hnul Hall Hids Hnone.
  induction bodies as [|data bodies IH] using rev_ind.
  - simpl. split; [done|]. split; [done|]. split; [lia|].
    split; [by left|done].
  - apply Forall_app in Hall as [Hall [Hdata _]%Forall_cons].
    assert (Hroom : (-2147483648 ≤ liked_songs_id_seq db)%Z ∧
                    (liked_songs_id_seq db + Z.of_nat (S (length bodies))
                       ≤ 2147483648)%Z).
    { unfold ids_left in Hids.
      rewrite length_app, andb_true_iff, !Z.leb_le in Hids. simpl in Hids.
      split; [lia|]. rewrite Nat.add_1_r in Hids. lia. }
    destruct IH as (Hwf' & Husers & Hseq & Hstate); [done| |].
    { unfold ids_left. rewrite andb_true_iff, !Z.leb_le. lia. }
    destruct Hdata as (ti & ar & th & Hf & Hti & Har & Hth).
    rewrite toggle_each_snoc, odd_length_snoc, length_app. cbn [fst snd].
    set (db1 := (toggle_each bodies db).2) in *.
    destruct (Nat.odd (length bodies)); cbn [negb].
    + destruct Hstate as (_ & i & d0 & ti0 & ar0 & th0 & _ & _ & Hrows).
      assert (Hhead : head (likes_of (JInt uid) (JStr sid) db1) =
        Some (LikedSong.mk i (JInt uid) (JStr sid)
                (as_text ti0) (as_text ar0) (as_text th0))).
      { unfold likes_of in *. rewrite Hrows, filter_app, Hnone, filter_cons.
        destruct (decide (like_matches _ _ _)) as [|Hn]; [done|].
        destruct Hn. by split. }
      rewrite (toggle_like_found data (JInt uid) (JStr sid) _ db1
                 (lf_user_id _ _ _ _ _ _ Hf) (lf_song_id _ _ _ _ _ _ Hf) Hhead).
      cbn [fst snd].
      assert (Hdel : filter (λ l, LikedSong.id l ≠ i) (liked_songs db1) =
                     liked_songs db).
      { pose proof (wf_like_ids _ Hwf') as Hnd. rewrite Hrows in Hnd |- *.
        pose proof (delete_by_id (liked_songs db) [] _ Hnd) as Hd.
        by rewrite app_nil_r in Hd. }
      split; [by apply wf_delete|]. split; [done|].
      split; [simpl; lia|].
      split; [by right|]. exact Hdel.
    + destruct Hstate as (_ & Hrows).
      assert (Hone : toggle_like data db1 =
        (Return liked,
         next_like_id (with_likes db1
           (liked_songs db1 ++
            [LikedSong.mk (liked_songs_id_seq db1) (JInt uid) (JStr sid)
               (as_text ti) (as_text ar) (as_text th)])))).
      { apply toggle_like_insert; [done| | | |].
        - unfold storable. by rewrite Hint, Hnul, Hti, Har, Hth.
        - unfold int4. rewrite andb_true_iff, !Z.leb_le. lia.
        - unfold likes_of in *. by rewrite Hrows.
        - apply references_user_int. unfold account_exists. by rewrite Husers. }
      rewrite Hone. cbn [fst snd].
      split; [by apply wf_insert_like|]. split; [done|].
      split; [simpl; lia|]. split; [done|].
      exists (liked_songs_id_seq db1), data, ti, ar, th.
      split; [by rewrite last_snoc|]. split; [done|].
      simpl. by rewrite Hrows.
Qed.

Lemma wf_alice_db hashed : wf (alice_db hashed).
Proof. solve_wf. Qed.

Lemma wf_doubled_db : wf doubled_db.
Proof. solve_wf. Qed.

Lemma account_exists_alice hashed : account_exists 1 (alice_db hashed).
Proof. by left. Qed.

Lemma wf_alice_bob_db : wf alice_bob_db.
Proof. solve_wf. Qed.

(** ** Properties of the like toggle *)

(** C1 (as amended). For every account that exists, with an id that fits
    the integer column, and every track id without NUL that has no row for
    the pair, successive calls of [toggle_like] for the pair, each with
    metadata the driver can bind, in a store whose sequence has an id left
    for each of them, leave the pair liked when their number is odd
    (exactly one row for the pair, holding the metadata of the last call as
    text, and the last call answered ["liked"]) and unliked when it is even
    (no row for the pair, the table as it was, the last call answered
    ["unliked"]). *)
Theorem toggle_like_flip bodies uid sid db :
  wf db →
  account_exists uid db →
  int4 uid = true →
  has_nul sid = false →
  Forall (likes_pair uid sid) bodies →
  ids_left (length bodies) (liked_songs_id_seq db) = true →
  likes_of (JInt uid) (JStr sid) db = [] →
  let r := (toggle_each bodies db).1 in
  let db' := (toggle_each bodies db).2 in
  if Nat.odd (length bodies) then
    r = Some (Return liked) ∧
    ∃ i data ti ar th,
      last bodies = Some data ∧
      like_fields data uid sid ti ar th ∧
      likes_of (JInt uid) (JStr sid) db' =
        [LikedSong.mk i (JInt uid) (JStr sid)
           (as_text ti) (as_text ar) (as_text th)] ∧
      liked_songs db' =
        liked_songs db ++
        [LikedSong.mk i (JInt uid) (JStr sid)
           (as_text ti) (as_text ar) (as_text th)]
  else
    (bodies = [] ∨ r = Some (Return unliked)) ∧
    likes_of (JInt uid) (JStr sid) db' = [] ∧
    liked_songs db' = liked_songs db.
Proof.
  intros Hwf Hacc Hint Hnul Hall Hids Hnone. cbv zeta.
  destruct (toggle_each_state bodies uid sid db
              Hwf Hacc Hint Hnul Hall Hids Hnone)
    as (_ & _ & _ & Hstate).
  destruct (Nat.odd (length bodies)).
  - destruct Hstate as (Hr & i & data & ti & ar & th & Hlast & Hf & Hrows).
    split; [done|]. exists i, data, ti, ar, th.
    split; [done|]. split; [done|]. split; [|done].
    unfold likes_of in *. rewrite Hrows, filter_app, Hnone, filter_cons.
    destruct (decide (like_matches _ _ _)) as [|Hn]; [done|].
    destruct Hn. by split.
  - destruct Hstate as (Hr & Hrows). split; [done|]. split; [|done].
    unfold likes_of in *. by rewrite Hrows.
Qed.

(** Three calls for account 1 and track ["t1"], each with another title,
    from a store with that account and no liked song. *)
Lemma toggle_like_flip_witness :
  (toggle_each
     [like_body 1 "t1" (JStr "A") (JStr "B") (JStr "C");
      like_body 1 "t1" (JStr "A2") (JStr "B") (JStr "C");
      like_body 1 "t1" (JStr "A3") (JStr "B") (JStr "C")]
     (alice_db "h")).1 = Some (Return liked).
Proof.
  pose proof (toggle_like_flip
    [like_body 1 "t1" (JStr "A") (JStr "B") (JStr "C");
     like_body 1 "t1" (JStr "A2") (JStr "B") (JStr "C");
     like_body 1 "t1" (JStr "A3") (JStr "B") (JStr "C")]
    1 "t1" (alice_db "h")
    (wf_alice_db "h") (account_exists_alice "h") eq_refl eq_refl) as H.
  refine (proj1 (H _ eq_refl eq_refl)).
  repeat (constructor;
          [eexists _, _, _; split; [apply like_body_fields|done]|]).
  constructor.
Defined.

(** C1, as stated, fails for an account id that names no account: the first
    call is refused by the foreign key of [liked_songs.user_id] and leaves
    no row. *)
Lemma toggle_like_flip_unknown_account :
  toggle_each [like_body 7 "t1" (JStr "A") (JStr "B") (JStr "C")] empty_db =
    (Some (Raise (IntegrityError "liked_songs_user_id_fkey")),
     next_like_id empty_db) ∧
  likes_of (JInt 7) (JStr "t1") (next_like_id empty_db) = [].
Proof. split; reflexivity. Qed.

(** Deleting the first row for the pair, when rows have distinct ids. *)
Lemma toggle_like_delete data uid sid db :
  NoDup (LikedSong.id <$> liked_songs db) →
  data !! "user_id" = Some uid →
  data !! "song_id" = Some sid →
  likes_of uid sid db ≠ [] →
  ∃ l1 row l2,
    liked_songs db = l1 ++ row :: l2 ∧
    like_matches uid sid row ∧
    toggle_like data db = (Return unliked, with_likes db (l1 ++ l2)).
Proof.
  intros Hids Hu Hs Hsome.
  destruct (head (likes_of uid sid db)) as [row|] eqn:Hhead.
  - rewrite (toggle_like_found data uid sid row db Hu Hs Hhead).
    apply head_filter_Some in Hhead as (l1 & l2 & Hl & Hrow & _).
    exists l1, row, l2. split; [done|]. split; [done|].
    rewrite Hl, delete_by_id; [done|]. by rewrite <- Hl.
  - by apply head_filter_None in Hhead.
Qed.

Lemma toggle_like_unbindable data uid sid ti ar th db :
  like_fields data uid sid ti ar th →
  likes_of (JInt uid) (JStr sid) db = [] →
  bindable (JStr sid) && bindable ti && bindable ar && bindable th = false →
  toggle_like data db = (Raise ValueError, db).
Proof.
  intros [Hu Hs Ht Ha Hth] Hnone Hb.
  unfold toggle_like, mbind, Handler_bind, subscript, first_like.
  rewrite Hu, Hs. simpl.
  unfold likes_of in Hnone. rewrite Hnone. simpl.
  rewrite Ht, Ha, Hth. simpl.
  unfold add_like. by rewrite Hb.
Qed.

Lemma toggle_like_out_of_range data uid sid ti ar th db :
  like_fields data uid sid ti ar th →
  likes_of (JInt uid) (JStr sid) db = [] →
  bindable (JStr sid) && bindable ti && bindable ar && bindable th = true →
  int4 uid = false →
  toggle_like data db = (Raise DataError, db).
Proof.
  intros [Hu Hs Ht Ha Hth] Hnone Hb Hint.
  unfold toggle_like, mbind, Handler_bind, subscript, first_like.
  rewrite Hu, Hs. simpl.
  unfold likes_of in Hnone. rewrite Hnone. simpl.
  rewrite Ht, Ha, Hth. simpl.
  unfold add_like. by rewrite Hb, Hint.
Qed.

(** C4 (as amended). For an integer account id and a track id without NUL:
    with a row for the pair, [toggle_like] deletes one such row and answers
    ["unliked"], whether or not the account exists. With no row for the
    pair, metadata the driver can bind, an id left in the sequence, and an
    account of that id, it appends exactly one row holding the given title,
    artist and thumbnail as text and answers ["liked"]. The handler itself never looks the
    account up; with no row for the pair and no account of that id, the
    foreign key of [liked_songs.user_id] refuses the insert: the call ends
    in an [IntegrityError] and both tables are as before. An id that does
    not fit the integer column ends in a [DataError], and metadata with a
    NUL character in a [ValueError], with the store unchanged. *)
Theorem toggle_like_spec data uid sid ti ar th db :
  wf db →
  like_fields data uid sid ti ar th →
  has_nul sid = false →
  (likes_of (JInt uid) (JStr sid) db ≠ [] →
     ∃ l1 row l2,
       liked_songs db = l1 ++ row :: l2 ∧
       like_matches (JInt uid) (JStr sid) row ∧
       toggle_like data db = (Return unliked, with_likes db (l1 ++ l2))) ∧
  (likes_of (JInt uid) (JStr sid) db = [] →
     storable uid sid ti ar th = true →
     int4 (liked_songs_id_seq db) = true →
     account_exists uid db →
     toggle_like data db =
       (Return liked,
        next_like_id (with_likes db
          (liked_songs db ++
           [LikedSong.mk (liked_songs_id_seq db) (JInt uid) (JStr sid)
              (as_text ti) (as_text ar) (as_text th)])))) ∧
  (likes_of (JInt uid) (JStr sid) db = [] →
     storable uid sid ti ar th = true →
     int4 (liked_songs_id_seq db) = true →
     ¬ account_exists uid db →
     toggle_like data db =
       (Raise (IntegrityError "liked_songs_user_id_fkey"), next_like_id db)) ∧
  (likes_of (JInt uid) (JStr sid) db = [] →
     bindable ti && bindable ar && bindable th = true →
     int4 uid = false →
     toggle_like data db = (Raise DataError, db)) ∧
  (likes_of (JInt uid) (JStr sid) db = [] →
     bindable ti && bindable ar && bindable th = false →
     toggle_like data db = (Raise ValueError, db)).
Proof.
  intros Hwf Hf Hnul. split; [|split; [|split; [|split]]].
  - intros Hsome. destruct Hf. apply toggle_like_delete; [apply Hwf|done..].
  - intros Hnone Hst Hseq Hacc.
    apply toggle_like_insert; [done..|by apply references_user_int].
  - intros Hnone Hst Hseq Hacc.
    apply (toggle_like_refused data uid sid ti ar th); [done..|].
    by apply references_user_int_false.
  - intros Hnone Hb Hint.
    apply (toggle_like_out_of_range data uid sid ti ar th); [done|done| |done].
    simpl. by rewrite Hnul.
  - intros Hnone Hb.
    apply (toggle_like_unbindable data uid sid ti ar th); [done|done|].
    simpl. rewrite Hnul. simpl.
    by rewrite <- !andb_assoc in Hb |- *.
Qed.

(** Account 1 likes track ["t1"], with the number 3 as title, in a store
    where it has no liked song. *)
Lemma toggle_like_spec_witness :
  toggle_like (like_body 1 "t1" (JInt 3) (JStr "B") (JStr "C")) (alice_db "h") =
    (Return liked,
     next_like_id (with_likes (alice_db "h")
       [LikedSong.mk 1 (JInt 1) (JStr "t1") (JStr "3") (JStr "B") (JStr "C")])).
Proof.
  exact (proj1 (proj2 (toggle_like_spec
    (like_body 1 "t1" (JInt 3) (JStr "B") (JStr "C")) 1 "t1"
    (JInt 3) (JStr "B") (JStr "C") (alice_db "h")
    (wf_alice_db "h") (like_body_fields _ _ _ _ _) eq_refl))
    eq_refl eq_refl eq_refl (account_exists_alice "h")).
Defined.

(** C4, as stated, fails for an account id that names no account: with
    account 1 only, a like of account 2 is not answered ["liked"] and no row
    is inserted. *)
Lemma toggle_like_orphan_refused :
  toggle_like (like_body 2 "t1" (JStr "A") (JStr "B") (JStr "C")) (alice_db "h") =
    (Raise (IntegrityError "liked_songs_user_id_fkey"),
     next_like_id (alice_db "h")) ∧
  liked_songs (next_like_id (alice_db "h")) = [].
Proof. split; reflexivity. Qed.

(** C10. In a store where the rows of [liked_songs] have distinct primary
    keys and [k >= 1] of them match the pair, one call of [toggle_like] answers ["unliked"] and
    deletes exactly one matching row: the table loses that one row, [k - 1]
    matching rows remain, and the rows of every other pair, the accounts and
    the order of the rows are as before. The body needs the two keys of the
    pair only. *)
Theorem toggle_like_deletes_one k data uid sid db :
  NoDup (LikedSong.id <$> liked_songs db) →
  data !! "user_id" = Some (JInt uid) →
  data !! "song_id" = Some (JStr sid) →
  length (likes_of (JInt uid) (JStr sid) db) = k →
  1 ≤ k →
  ∃ l1 row l2 db',
    toggle_like data db = (Return unliked, db') ∧
    liked_songs db = l1 ++ row :: l2 ∧
    like_matches (JInt uid) (JStr sid) row ∧
    liked_songs db' = l1 ++ l2 ∧
    users db' = users db ∧
    length (likes_of (JInt uid) (JStr sid) db') = k - 1 ∧
    length (liked_songs db') = length (liked_songs db) - 1 ∧
    filter (λ l, ¬ like_matches (JInt uid) (JStr sid) l) (liked_songs db') =
      filter (λ l, ¬ like_matches (JInt uid) (JStr sid) l) (liked_songs db).
Proof.
  intros Hids Hu Hs Hk Hpos.
  destruct (toggle_like_delete data (JInt uid) (JStr sid) db Hids Hu Hs)
    as (l1 & row & l2 & Hl & Hrow & Heq).
  { intros Hnil. rewrite Hnil in Hk. simpl in Hk. lia. }
  exists l1, row, l2, (with_likes db (l1 ++ l2)).
  split; [done|]. split; [done|]. split; [done|]. split; [done|].
  split; [done|]. unfold likes_of in *. simpl. rewrite Hl in *. split; [|split].
  - rewrite filter_delete_length in Hk by done. lia.
  - rewrite !length_app. simpl. lia.
  - rewrite (filter_delete_other _ l1 l2 row); [done|]. by intros Hn.
Qed.

(** The doubled pair of [doubled_db]: one call removes the first of the two
    rows and keeps the other and the row of track ["t2"]. *)
Lemma toggle_like_deletes_one_witness :
  ∃ l1 row l2 db',
    toggle_like (like_body 1 "t1" JNull JNull JNull) doubled_db =
      (Return unliked, db') ∧
    liked_songs doubled_db = l1 ++ row :: l2 ∧
    like_matches (JInt 1) (JStr "t1") row ∧
    liked_songs db' = l1 ++ l2 ∧
    users db' = users doubled_db ∧
    length (likes_of (JInt 1) (JStr "t1") db') = 2 - 1 ∧
    length (liked_songs db') = length (liked_songs doubled_db) - 1 ∧
    filter (λ l, ¬ like_matches (JInt 1) (JStr "t1") l) (liked_songs db') =
      filter (λ l, ¬ like_matches (JInt 1) (JStr "t1") l) (liked_songs doubled_db).
Proof.
  apply (toggle_like_deletes_one 2 _ 1 "t1" doubled_db
           (wf_like_ids _ wf_doubled_db));
    [reflexivity|reflexivity|reflexivity|lia].
Defined.

(** ** At most one row for a pair, along any sequence of requests *)











(** ** Registration and login *)

Lemma head_filter_Exists {A} (P : A → Prop) `{∀ x, Decision (P x)} (l : list A) :
  Exists P l ↔ is_Some (head (filter P l)).
Proof.
  rewrite Exists_exists. split.
  - intros (x & Hin & Hx).
    destruct (head (filter P l)) eqn:Hhead; [by eexists|].
    apply head_filter_None in Hhead.
    assert (x ∈ filter P l) as Hf by (by apply list_elem_of_filter).
    rewrite Hhead in Hf. by apply elem_of_nil in Hf.
  - intros [x (l1 & l2 & -> & Hx & _)%head_filter_Some].
    exists x. split; [|done]. apply elem_of_app. right. left.
Qed.


(** [register] tests both keys before anything else. *)
Lemma register_requires_fields hashpw salt data db :
  truthy (dict_get data "username") = false ∨
  truthy (dict_get data "password") = false →
  register hashpw salt data db =
    (HTTPException 400 "Username and password required", db).
Proof.
  intros Hmissing. unfold register.
  by destruct Hmissing as [-> | ->]; rewrite ?orb_true_r.
Qed.

Section Accounts.

Variable hashpw : string → string → option string.
Variable checkpw : string → string → option bool.



Lemma head_filter_free u db :
  ¬ username_taken u db →
  head (filter (λ a, User.username a = JStr u) (users db)) = None.
Proof.
  intros Hfree. destruct (head (filter _ (users db))) as [a|] eqn:Hhead; [|done].
  destruct Hfree. apply (proj2 (head_filter_Exists _ _)). by eexists.
Qed.







Lemma login_unknown data u db :
  data !! "username" = Some (JStr u) →
  has_nul u = false →
  ¬ username_taken u db →
  login checkpw data db = (invalid_credentials, db).
Proof.
  intros Hu Hnul Hfree.
  unfold login, mbind, Handler_bind, subscript, first_user.
  rewrite Hu. simpl. rewrite Hnul. simpl.
  by rewrite head_filter_free.
Qed.



End Accounts.









(** ** Listing the liked songs of an account *)

Lemma get_liked_eq uid db :
  get_liked uid db = (Return (liked_entry <$> rows_of uid db), db).
Proof. reflexivity. Qed.

Lemma likes_of_rows_of uid sid db :
  likes_of (JInt uid) sid db =
    filter (λ l, LikedSong.song_id l = sid) (rows_of uid db).
Proof.
  unfold likes_of, rows_of. rewrite list_filter_filter.
  apply list_filter_iff. intros l. unfold like_matches. tauto.
Qed.

Lemma toggle_like_users data db : users (toggle_like data db).2 = users db.
Proof.
  by destruct (toggle_like_cases data db)
    as [->|[->|[(? & ? & ? & _ & _ & _ & ->)
               |(? & ? & ? & ? & ? & _ & _ & _ & ->)]]].
Qed.

(** A like posted for one account leaves the rows of every other account. *)
Lemma toggle_like_other_account data a b db :
  wf db →
  data !! "user_id" = Some (JInt b) →
  a ≠ b →
  rows_of a (toggle_like data db).2 = rows_of a db.
Proof.
  intros Hwf Hb Hab.
  destruct (toggle_like_cases data db)
    as [->|[->|[(uid & sid & row & Hu & _ & Hhead & ->)
               |(uid & sid & ti & ar & th & Hu & _ & _ & ->)]]];
    [done|done|..]; rewrite Hb in Hu; injection Hu as <-; unfold rows_of; simpl.
  - apply head_filter_Some in Hhead as (l1 & l2 & Hl & [Hrow _] & _).
    rewrite Hl, delete_by_id by (rewrite <- Hl; apply Hwf).
    symmetry. apply filter_delete_other. rewrite Hrow. by intros [= ->].
  - rewrite filter_app, filter_cons. simpl.
    destruct (decide (JInt b = JInt a)) as [[= ->]|_]; [done|].
    by rewrite app_nil_r.
Qed.

(** What a like that was answered ["liked"] found and left. *)
Lemma toggle_like_liked_inv data uid sid ti ar th db :
  like_fields data uid sid ti ar th →
  (toggle_like data db).1 = Return liked →
  likes_of (JInt uid) (JStr sid) db = [] ∧
  toggle_like data db =
    (Return liked,
     liked_once uid sid (as_text ti) (as_text ar) (as_text th) db).
Proof.
  intros [Hu Hs Ht Ha Hth].
  unfold toggle_like, mbind, Handler_bind, subscript, first_like, likes_of.
  rewrite Hu, Hs. simpl.
  destruct (head (filter (like_matches (JInt uid) (JStr sid)) (liked_songs db)))
    as [row|] eqn:Hhead; simpl.
  - intros Heq%Return_inj. by destruct liked_ne_unliked.
  - apply head_filter_None in Hhead.
    rewrite Ht, Ha, Hth. simpl.
    by destruct (add_like_cases (JInt uid) (JStr sid) ti ar th db)
      as [->|[->|[(_ & ->)|(_ & _ & _ & _ & _ & ->)]]].
Qed.

(** C6. [get_liked] answers with the records of the rows of [liked_songs]
    whose [user_id] is the given one, and of no other row: a record is in the
    answer exactly when it is the record of such a row, so a track of which
    the account has no row is not in it. After account [a] likes [t1] and
    [t2], each call answered ["liked"], with a like of another account [b]
    in between, from a store where [a] has no liked song, the answer is the
    records of [t1] and of [t2], with their metadata as text. *)
Theorem get_liked_spec hashpw checkpw a db :
  ∃ entries,
    get_liked a db = (Return entries, db) ∧
    (∀ e, e ∈ entries ↔
          ∃ l, l ∈ liked_songs db ∧ LikedSong.user_id l = JInt a ∧
               e = song_dict (LikedSong.song_id l) (LikedSong.title l)
                     (LikedSong.artist l) (LikedSong.thumbnail l)) ∧
    (∀ t, (∀ l, l ∈ liked_songs db → LikedSong.user_id l = JInt a →
                LikedSong.song_id l ≠ t) →
          ∀ e, e ∈ entries → e !! "id" ≠ Some t) ∧
    (∀ b t1 t2 ti1 ar1 th1 ti2 ar2 th2 d1 d2 d3,
       wf db → rows_of a db = [] →
       a ≠ b → t1 ≠ t2 →
       like_fields d1 a t1 ti1 ar1 th1 →
       like_fields d2 a t2 ti2 ar2 th2 →
       d3 !! "user_id" = Some (JInt b) →
       (toggle_like d1 db).1 = Return liked →
       (toggle_like d2 (run hashpw checkpw [Like d1; Like d3] db)).1 =
         Return liked →
       let db' := run hashpw checkpw [Like d1; Like d3; Like d2] db in
       get_liked a db' =
         (Return [song_dict (JStr t1) (as_text ti1) (as_text ar1) (as_text th1);
                  song_dict (JStr t2) (as_text ti2) (as_text ar2) (as_text th2)],
          db')).
Proof.
  exists (liked_entry <$> rows_of a db).
  split; [done|]. split; [|split].
  - intros e. rewrite list_elem_of_fmap. unfold rows_of. split.
    + intros (l & -> & [Hl Hin]%list_elem_of_filter). by exists l.
    + intros (l & Hin & Hl & ->). exists l. split; [done|].
      by apply list_elem_of_filter.
  - intros t Hnone e (l & -> & [Hl Hin]%list_elem_of_filter)%list_elem_of_fmap.
    unfold liked_entry. rewrite lookup_insert_eq. intros [= Heq].
    by apply (Hnone l).
  - intros b t1 t2 ti1 ar1 th1 ti2 ar2 th2 d1 d2 d3
      Hwf Hrows Hab Ht Hf1 Hf2 Hd3 Hok1 Hok2 db'. subst db'.
    rewrite get_liked_eq. f_equal. f_equal. simpl in Hok2 |- *.
    destruct (toggle_like_liked_inv d1 a t1 ti1 ar1 th1 db Hf1 Hok1)
      as [_ H1].
    rewrite H1 in Hok2 |- *. cbn [snd] in Hok2 |- *.
    set (db1 := liked_once a t1 (as_text ti1) (as_text ar1) (as_text th1) db)
      in *.
    assert (Hwf1 : wf db1) by (by apply wf_insert_like).
    assert (Hrows1 : rows_of a db1 =
              [LikedSong.mk (liked_songs_id_seq db) (JInt a) (JStr t1)
                 (as_text ti1) (as_text ar1) (as_text th1)]).
    { unfold rows_of in *. simpl. rewrite filter_app, Hrows, filter_cons. simpl.
      by destruct (decide (JInt a = JInt a)). }
    set (db2 := (toggle_like d3 db1).2) in *.
    assert (Hrows2 : rows_of a db2 = rows_of a db1)
      by (by apply (toggle_like_other_account d3 a b)).
    destruct (toggle_like_liked_inv d2 a t2 ti2 ar2 th2 db2 Hf2 Hok2)
      as [_ H3].
    rewrite H3. cbn [snd]. unfold rows_of at 1. simpl.
    rewrite filter_app, filter_cons. simpl.
    destruct (decide (JInt a = JInt a)); [|done].
    fold (rows_of a db2). by rewrite Hrows2, Hrows1.
Qed.

(** Account 1 likes ["t1"] and ["t2"]; in between, account 2 likes ["t3"]. *)
Lemma get_liked_spec_witness :
  get_liked 1
    (run toy_hashpw toy_checkpw
       [Like (like_body 1 "t1" (JStr "A") (JStr "B") (JStr "C"));
        Like (like_body 2 "t3" (JStr "G") (JStr "H") (JStr "I"));
        Like (like_body 1 "t2" (JStr "D") (JStr "E") (JStr "F"))]
       alice_bob_db) =
    (Return [song_dict (JStr "t1") (JStr "A") (JStr "B") (JStr "C");
             song_dict (JStr "t2") (JStr "D") (JStr "E") (JStr "F")],
     run toy_hashpw toy_checkpw
       [Like (like_body 1 "t1" (JStr "A") (JStr "B") (JStr "C"));
        Like (like_body 2 "t3" (JStr "G") (JStr "H") (JStr "I"));
        Like (like_body 1 "t2" (JStr "D") (JStr "E") (JStr "F"))]
       alice_bob_db).
Proof.
  destruct (get_liked_spec toy_hashpw toy_checkpw 1 alice_bob_db)
    as (entries & _ & _ & _ & Hscenario).
  apply (Hscenario 2%Z "t1" "t2" (JStr "A") (JStr "B") (JStr "C")
           (JStr "D") (JStr "E") (JStr "F"));
    [apply wf_alice_bob_db|reflexivity|lia|discriminate
    |apply like_body_fields|apply like_body_fields
    |reflexivity|reflexivity|reflexivity].
Defined.

(** ** Bodies with a missing key *)

(** [login] subscripts the body without a test. *)
Lemma login_requires_username checkpw data db :
  data !! "username" = None →
  login checkpw data db = (Raise (KeyError "username"), db).
Proof.
  intros Hu. unfold login, mbind, Handler_bind, subscript. by rewrite Hu.
Qed.

(** C7 at the bodies where it fails. A login body without ["username"] and a
    like body without ["user_id"] end in a [KeyError] that nothing catches,
    answered with status 500 and not 400; a login body without ["password"]
    for a known username does the same; a like body without the metadata
    keys, for a pair that has a row, is served: the row is deleted. Only
    [register] tests for its keys ([register_requires_fields]). *)
Theorem missing_field_not_rejected checkpw :
  login checkpw ∅ empty_db = (Raise (KeyError "username"), empty_db) ∧
  http_status (login checkpw ∅ empty_db).1 = 500%Z ∧
  login checkpw {[ "username" := JStr "alice" ]} alice_likes_db =
    (Raise (KeyError "password"), alice_likes_db) ∧
  toggle_like ∅ empty_db = (Raise (KeyError "user_id"), empty_db) ∧
  http_status (toggle_like ∅ empty_db).1 = 500%Z ∧
  toggle_like (pair_only 1 "t1") alice_likes_db =
    (Return unliked, with_likes alice_likes_db []).
Proof. repeat split. Qed.

(** ** The music routes *)

Lemma try_except_Return {A} (body : outcome A) (a : A) :
  ∃ r, try_except body (Return a) = Return r.
Proof. destruct body; simpl; eauto. Qed.

Lemma bind_failed {A B} (m : outcome A) (f : A → outcome B) :
  failed m → failed (m ≫= f).
Proof. by destruct m. Qed.

Lemma try_except_failed {A} (body handler : outcome A) :
  failed body → try_except body handler = handler.
Proof. by destruct body. Qed.

(** C8. When a call of the catalog client fails, [trending] and [search]
    return the empty list; when there is no client ([yt] is [None]) they
    return the pair of the "YouTube Music service unavailable" payload and
    503; and whatever the client does, both routes return a value: no
    exception and no [HTTPException] leaves them. *)
Theorem music_routes_swallow_faults yt q :
  (yt = None →
     trending yt = Return service_unavailable ∧
     search yt q = Return service_unavailable) ∧
  (∀ client, yt = Some client →
     failed (YTMusic.get_charts client "IN") →
     trending yt = Return (Songs [])) ∧
  (∀ client, yt = Some client →
     failed (YTMusic.search client q) →
     search yt q = Return (Songs [])) ∧
  (∃ r, trending yt = Return r) ∧
  (∃ r, search yt q = Return r).
Proof.
  split; [by intros ->|]. split; [|split; [|split]].
  - intros client -> Hfail. unfold trending.
    apply try_except_failed. by apply bind_failed.
  - intros client -> Hfail. unfold search.
    apply try_except_failed. by apply bind_failed.
  - destruct yt as [client|]; simpl; [apply try_except_Return|eauto].
  - destruct yt as [client|]; simpl; [apply try_except_Return|eauto].
Qed.

(** Both routes with a client whose calls fail, and with no client. *)
Lemma music_routes_swallow_faults_witness :
  trending (Some broken_client) = Return (Songs []) ∧
  search (Some broken_client) "abc" = Return (Songs []) ∧
  trending None = Return service_unavailable ∧
  search None "abc" = Return service_unavailable.
Proof.
  destruct (music_routes_swallow_faults (Some broken_client) "abc")
    as (_ & Ht & Hs & _).
  destruct (music_routes_swallow_faults None "abc") as (Hnone & _).
  split; [exact (Ht broken_client eq_refl I)|].
  split; [exact (Hs broken_client eq_refl I)|].
  exact (Hnone eq_refl).
Defined.

(** *** Trending: the first fifteen of the chart *)

Lemma comprehension_Return {A B} (f : A → outcome B) xs ys :
  comprehension f xs = Return ys ↔ Forall2 (λ x y, f x = Return y) xs ys.
Proof.
  revert ys. induction xs as [|x xs IH]; intros ys; simpl.
  - split; [by intros [= <-]; constructor|by intros ->%Forall2_nil_inv_l].
  - split.
    + destruct (f x) as [y| |] eqn:Hx; simpl; try done.
      destruct (comprehension f xs) as [ys'| |] eqn:Hxs; simpl; try done.
      intros [= <-]. constructor; [done|]. by apply IH.
    + intros (y & ys' & Hy & Hys & ->)%Forall2_cons_inv_l.
      rewrite Hy. simpl. apply IH in Hys. by rewrite Hys.
Qed.

Lemma getitem_Return v k x :
  getitem v k = Return x ↔ ∃ fields, v = PDict fields ∧ assoc k fields = Some x.
Proof.
  split.
  - destruct v as [| | | | |fields]; simpl; try done.
    destruct (assoc k fields) eqn:Hk; [|done]. intros [= ->]. by exists fields.
  - intros (fields & -> & Hk). simpl. by rewrite Hk.
Qed.

Lemma index_first a more : index (PList (a :: more)) 0 = Return a.
Proof. reflexivity. Qed.

Lemma index_last items :
  index (PList items) (-1) =
    match last items with Some x => Return x | None => Raise IndexError end.
Proof.
  unfold index, position. rewrite last_lookup.
  destruct (decide (-1 < 0)%Z); [|lia].
  destruct items as [|x items]; [done|].
  case_decide as Hr; [|simpl in Hr; lia].
  replace (Z.to_nat (-1 + Z.of_nat (length (x :: items))))
    with (pred (length (x :: items))) by (simpl; lia).
  by destruct ((x :: items) !! pred (length (x :: items))).
Qed.

(** What [song_entry] builds is the [track_entry] record, and it builds
    one exactly for the items that have one. *)
Lemma song_entry_Return s e : song_entry s = Return e ↔ track_entry s e.
Proof.
  split.
  - unfold song_entry.
    destruct (getitem s "videoId") as [vid| |] eqn:Hvid; simpl; try done.
    destruct (getitem s "title") as [ti| |] eqn:Hti; simpl; try done.
    destruct (getitem s "artists") as [artists| |] eqn:Har; simpl; try done.
    destruct (index artists 0) as [a| |] eqn:Ha; simpl; try done.
    destruct (getitem a "name") as [name| |] eqn:Hname; simpl; try done.
    destruct (getitem s "thumbnails") as [thumbs| |] eqn:Hth; simpl; try done.
    destruct (index thumbs (-1)) as [th| |] eqn:Hlast; simpl; try done.
    destruct (getitem th "url") as [url| |] eqn:Hurl; simpl; try done.
    intros [= <-].
    apply getitem_Return in Hvid as (fields & -> & Hvid).
    apply getitem_Return in Hti as (? & [= <-] & Hti).
    apply getitem_Return in Har as (? & [= <-] & Har).
    apply getitem_Return in Hth as (? & [= <-] & Hth).
    destruct artists as [| | |c|[|a' more]|]; try done.
    { simpl in Ha. destruct (position _ _); [|done].
      injection Ha as <-. done. }
    injection Ha as ->.
    destruct thumbs as [| | |c|thumbs|]; try done.
    { simpl in Hlast. destruct (position _ _); [|done].
      injection Hlast as <-. done. }
    rewrite index_last in Hlast.
    destruct (last thumbs) as [th'|] eqn:Hl; [|done]. injection Hlast as ->.
    by eapply track_entry_intro.
  - intros [fields vid ti a more name thumbs th url
              Hvid Hti Har Hname Hth Hlast Hurl].
    assert (Hget : ∀ k x, assoc k fields = Some x →
                          getitem (PDict fields) k = Return x).
    { intros k x Hk. simpl. by rewrite Hk. }
    unfold song_entry, mbind, outcome_bind.
    rewrite (Hget _ _ Hvid); cbv beta iota.
    rewrite (Hget _ _ Hti); cbv beta iota.
    rewrite (Hget _ _ Har); cbv beta iota.
    rewrite index_first; cbv beta iota.
    rewrite Hname; cbv beta iota.
    rewrite (Hget _ _ Hth); cbv beta iota.
    rewrite index_last, Hlast; cbv beta iota.
    by rewrite Hurl.
Qed.

Lemma comprehension_chars s entries :
  comprehension song_entry (chars s) = Return entries → entries = [].
Proof.
  destruct s as [|c s]; simpl; [by intros [= <-]|done].
Qed.

(** A list that [trending] returns is empty or the records of the first
    fifteen items of the chart. *)
Lemma trending_Songs_inv yt entries :
  trending yt = Return (Songs entries) →
  entries = [] ∨
  ∃ client charts by_kind songs,
    yt = Some client ∧
    YTMusic.get_charts client "IN" = Return charts ∧
    getitem charts "songs" = Return by_kind ∧
    getitem by_kind "items" = Return (PList songs) ∧
    Forall2 track_entry (take 15 songs) entries.
Proof.
  destruct yt as [client|]; [|done]. unfold trending, mbind, outcome_bind.
  destruct (YTMusic.get_charts client "IN") as [charts| |] eqn:Hcharts;
    cbv beta iota; simpl try_except; try (intros [= <-]; by left).
  destruct (getitem charts "songs") as [by_kind| |] eqn:Hkind;
    cbv beta iota; simpl try_except; try (intros [= <-]; by left).
  destruct (getitem by_kind "items") as [songs| |] eqn:Hitems;
    cbv beta iota; simpl try_except; try (intros [= <-]; by left).
  destruct songs as [| | |s|songs|]; simpl slice_to; cbv beta iota;
    simpl try_except; try (intros [= <-]; by left).
  - simpl iterate.
    destruct (comprehension song_entry _) as [ys| |] eqn:Hc;
      cbv beta iota; simpl try_except; intros [= <-]; left; [|done|done].
    by apply comprehension_chars in Hc.
  - simpl iterate.
    destruct (comprehension song_entry (take 15 songs)) as [ys| |] eqn:Hc;
      cbv beta iota; simpl try_except; intros [= <-]; [|by left|by left].
    right. exists client, charts, by_kind, songs.
    repeat (split; [done|]).
    apply comprehension_Return in Hc.
    eapply Forall2_impl; [exact Hc|]. intros x y. apply song_entry_Return.
Qed.

(** C9. A list that [trending] returns has at most fifteen entries. When
    the chart has a list of items and the first fifteen have a record
    (an id, a title, a first artist with a name, a last thumbnail with a
    url), [trending] returns exactly those records, in chart order, however
    many items follow; and a non-empty list it returns is always that. *)
Theorem trending_top_fifteen yt :
  (∀ entries, trending yt = Return (Songs entries) → length entries ≤ 15) ∧
  (∀ client charts by_kind songs entries,
     yt = Some client →
     YTMusic.get_charts client "IN" = Return charts →
     getitem charts "songs" = Return by_kind →
     getitem by_kind "items" = Return (PList songs) →
     Forall2 track_entry (take 15 songs) entries →
     trending yt = Return (Songs entries)) ∧
  (∀ entries, trending yt = Return (Songs entries) → entries ≠ [] →
     ∃ client charts by_kind songs,
       yt = Some client ∧
       YTMusic.get_charts client "IN" = Return charts ∧
       getitem charts "songs" = Return by_kind ∧
       getitem by_kind "items" = Return (PList songs) ∧
       Forall2 track_entry (take 15 songs) entries).
Proof.
  split; [|split].
  - intros entries [->|(client & charts & by_kind & songs & _ & _ & _ & _ & Hall)]
      %trending_Songs_inv; [simpl; lia|].
    rewrite <- (Forall2_length _ _ _ Hall), length_take. lia.
  - intros client charts by_kind songs entries -> Hcharts Hkind Hitems Hall.
    unfold trending, mbind, outcome_bind.
    rewrite Hcharts; cbv beta iota. rewrite Hkind; cbv beta iota.
    rewrite Hitems; cbv beta iota. simpl slice_to. cbv beta iota.
    simpl iterate. cbv beta iota.
    assert (Hc : comprehension song_entry (take 15 songs) = Return entries).
    { apply comprehension_Return. eapply Forall2_impl; [exact Hall|].
      intros x y. apply song_entry_Return. }
    by rewrite Hc.
  - intros entries [->|Hinv]%trending_Songs_inv Hne; done.
Qed.

(** A chart of sixteen items: the first fifteen records are returned. *)
Lemma trending_top_fifteen_witness :
  trending (Some chart_client) = Return (Songs (chart_entry <$> take 15 sixteen)) ∧
  length (chart_entry <$> take 15 sixteen) ≤ 15.
Proof.
  destruct (trending_top_fifteen (Some chart_client)) as (Hlen & Hok & _).
  assert (Heq : trending (Some chart_client) =
                  Return (Songs (chart_entry <$> take 15 sixteen))).
  { apply (Hok chart_client _ _ (chart_item <$> sixteen) _
             eq_refl eq_refl eq_refl eq_refl).
    simpl. repeat (constructor; [by eapply track_entry_intro|]). constructor. }
  split; [exact Heq|]. exact (Hlen _ Heq).
Defined.


(** * Further properties of the routes *)

(** ** Edge cases of registration and login *)

(** Where [register] can end when both keys passed the test. *)
Lemma register_after_test hashpw salt data db :
  truthy (dict_get data "username") = true →
  truthy (dict_get data "password") = true →
  register hashpw salt data db = (duplicate_username, db) ∨
  register hashpw salt data db = (Raise AttributeError, db) ∨
  register hashpw salt data db = (Raise ValueError, db) ∨
  register hashpw salt data db = (Raise ProgrammingError, db) ∨
  register hashpw salt data db = (Raise DataError, db) ∨
  (∃ name hashed,
     truthy name = true ∧
     Forall (λ u, User.username u ≠ name) (users db) ∧
     register hashpw salt data db =
       (Return success,
        with_user db (User.mk (users_id_seq db) name hashed))).
Proof.
  intros Hu Hp. unfold dict_get in Hu, Hp.
  destruct (data !! "username") as [name|] eqn:Hname; [|done].
  destruct (data !! "password") as [password|] eqn:Hpass; [|done].
  simpl in Hu, Hp.
  unfold register.
  rewrite (dict_get_Some _ _ _ Hname), (dict_get_Some _ _ _ Hpass), Hu, Hp.
  simpl negb. simpl orb. cbv iota.
  unfold mbind, Handler_bind, subscript. rewrite Hname, Hpass. simpl.
  destruct (first_user_cases name db) as [->|[->| -> ]]; [tauto|tauto|].
  destruct (head (filter (λ u, User.username u = name) (users db)))
    as [a|] eqn:Hhead; simpl; [by left|].
  assert (Hfree : Forall (λ u, User.username u ≠ name) (users db)).
  { apply Forall_forall. intros a Ha Heq.
    assert (is_Some (head (filter (λ u, User.username u = name) (users db))))
      as [? Hsome]; [|by rewrite Hhead in Hsome].
    apply (proj1 (head_filter_Exists _ _)), Exists_exists. by exists a. }
  destruct password as [|b|z|p]; simpl; try tauto.
  destruct (hashpw p salt) as [hashed|]; simpl; [|tauto].
  unfold add_user, username_free.
  destruct (int4 (users_id_seq db)); simpl; [|tauto].
  do 5 right. exists name, hashed. split; [done|]. split; [done|].
  by rewrite (bool_decide_eq_true_2 _ Hfree), orb_true_r.
Qed.

(** X1. [register] answers 400 "Username and password required" exactly
    when the username or the password is missing or falsy (empty string, 0,
    false, null); the store is then unchanged. *)
Theorem register_required_iff hashpw salt data db :
  ((register hashpw salt data db).1 =
     HTTPException 400 "Username and password required" ↔
   truthy (dict_get data "username") = false ∨
   truthy (dict_get data "password") = false) ∧
  (truthy (dict_get data "username") = false ∨
   truthy (dict_get data "password") = false →
   (register hashpw salt data db).2 = db).
Proof.
  split; [split|].
  - intros Hr.
    destruct (truthy (dict_get data "username")) eqn:Hu; [|by left].
    destruct (truthy (dict_get data "password")) eqn:Hp; [|by right].
    destruct (register_after_test hashpw salt data db Hu Hp)
      as [Heq|[Heq|[Heq|[Heq|[Heq|(name & hashed & _ & _ & Heq)]]]]];
      by rewrite Heq in Hr.
  - intros H. by rewrite register_requires_fields.
  - intros H. by rewrite register_requires_fields.
Qed.

(** A body without a password, registered on the empty store. *)
Lemma register_required_iff_witness :
  (register toy_hashpw "s" ({[ "username" := JStr "bob" ]} : dict) empty_db).2 = empty_db.
Proof.
  apply (proj2 (register_required_iff toy_hashpw "s"
                  ({[ "username" := JStr "bob" ]} : dict) empty_db)).
  right. reflexivity.
Defined.

(** X2. A password that passes the test of [register] without being a
    string (a non-zero number, [true]) reaches [hash_password], where
    [encode] raises [AttributeError]: for a free string username without
    NUL the call ends in that exception and no account is created. *)
Theorem register_non_string_password hashpw salt data u password db :
  data !! "username" = Some (JStr u) →
  u ≠ "" →
  has_nul u = false →
  data !! "password" = Some password →
  truthy password = true →
  (∀ p, password ≠ JStr p) →
  ¬ username_taken u db →
  register hashpw salt data db = (Raise AttributeError, db).
Proof.
  intros Hname Hu Hnul Hpass Hp Hns Hfree.
  unfold register.
  rewrite (dict_get_Some _ _ _ Hname), (dict_get_Some _ _ _ Hpass), Hp.
  rewrite truthy_JStr by done. simpl negb. simpl orb. cbv iota.
  unfold mbind, Handler_bind, subscript, first_user.
  rewrite Hname, Hpass. simpl. rewrite Hnul. simpl.
  rewrite head_filter_free by done. simpl.
  destruct password as [|b|z|p]; try done. by destruct (Hns p).
Qed.

(** ["bob"] registers with the number 5 as password. *)
Lemma register_non_string_password_witness :
  register toy_hashpw "s"
    (<[ "username" := JStr "bob" ]> ({[ "password" := JInt 5 ]} : dict)) empty_db =
    (Raise AttributeError, empty_db).
Proof.
  apply (register_non_string_password toy_hashpw "s" _ "bob" (JInt 5));
    [reflexivity|discriminate|reflexivity|reflexivity|reflexivity|discriminate|].
  by intros ?%Exists_nil.
Defined.

(** X3. A login body with a username without NUL and no ["password"] key
    tells a known username from an unknown one: for an unknown username the
    answer is 401 "Invalid credentials", the password never being read; for
    a known one the subscript raises [KeyError], answered with status
    500. *)
Theorem login_without_password checkpw data u db :
  data !! "username" = Some (JStr u) →
  has_nul u = false →
  data !! "password" = None →
  (username_taken u db →
     login checkpw data db = (Raise (KeyError "password"), db)) ∧
  (¬ username_taken u db →
     login checkpw data db = (invalid_credentials, db)).
Proof.
  intros Hu Hnul Hp. split.
  - intros Htaken.
    destruct (proj1 (head_filter_Exists _ _) Htaken) as [a Ha].
    unfold login, mbind, Handler_bind, subscript, first_user.
    rewrite Hu. simpl. rewrite Hnul. simpl. by rewrite Ha, Hp.
  - intros Hfree. by apply (login_unknown checkpw data u db).
Qed.

(** The body [{"username": "alice"}] with ["alice"] registered, and the
    body [{"username": "carol"}]. *)
Lemma login_without_password_witness :
  login toy_checkpw ({[ "username" := JStr "alice" ]} : dict) (alice_db "h") =
    (Raise (KeyError "password"), alice_db "h") ∧
  login toy_checkpw ({[ "username" := JStr "carol" ]} : dict) (alice_db "h") =
    (invalid_credentials, alice_db "h").
Proof.
  split.
  - destruct (login_without_password toy_checkpw
                ({[ "username" := JStr "alice" ]} : dict) "alice" (alice_db "h"))
      as [Hknown _]; [reflexivity|reflexivity|reflexivity|].
    apply Hknown. by left.
  - destruct (login_without_password toy_checkpw
                ({[ "username" := JStr "carol" ]} : dict) "carol" (alice_db "h"))
      as [_ Hunknown]; [reflexivity|reflexivity|reflexivity|].
    apply Hunknown. intros [[=]|[]%Exists_nil]%Exists_cons.
Defined.

(** ** What a like changes and what it leaves *)

(** The ways [toggle_like] can end. *)
Lemma toggle_like_outcomes data db :
  (∃ k : string,
     data !! k = None ∧ toggle_like data db = (Raise (KeyError k), db)) ∨
  toggle_like data db = (Raise ValueError, db) ∨
  toggle_like data db = (Raise DataError, db) ∨
  (∃ uid sid,
     data !! "user_id" = Some uid ∧ data !! "song_id" = Some sid ∧
     likes_of uid sid db = [] ∧ references_user uid db = false ∧
     toggle_like data db =
       (Raise (IntegrityError "liked_songs_user_id_fkey"), next_like_id db)) ∨
  (∃ uid sid row,
     data !! "user_id" = Some uid ∧ data !! "song_id" = Some sid ∧
     head (likes_of uid sid db) = Some row ∧
     toggle_like data db =
       (Return unliked,
        with_likes db
          (filter (λ l, LikedSong.id l ≠ LikedSong.id row) (liked_songs db)))) ∨
  (∃ uid sid ti ar th,
     data !! "user_id" = Some uid ∧ data !! "song_id" = Some sid ∧
     data !! "title" = Some ti ∧ data !! "artist" = Some ar ∧
     data !! "thumbnail" = Some th ∧
     likes_of uid sid db = [] ∧ references_user uid db = true ∧
     toggle_like data db =
       (Return liked,
        next_like_id (with_likes db
          (liked_songs db ++
           [LikedSong.mk (liked_songs_id_seq db) uid sid
              (as_text ti) (as_text ar) (as_text th)])))).
Proof.
  unfold toggle_like, mbind, Handler_bind, subscript, first_like.
  destruct (data !! "user_id") as [uid|] eqn:Hu; simpl;
    [|left; by exists "user_id"].
  destruct (data !! "song_id") as [sid|] eqn:Hs; simpl;
    [|left; by exists "song_id"].
  destruct (head (filter (like_matches uid sid) (liked_songs db)))
    as [row|] eqn:Hhead; simpl.
  - do 4 right; left. by exists uid, sid, row.
  - apply head_filter_None in Hhead.
    destruct (data !! "title") as [ti|] eqn:Ht; simpl;
      [|left; by exists "title"].
    destruct (data !! "artist") as [ar|] eqn:Ha; simpl;
      [|left; by exists "artist"].
    destruct (data !! "thumbnail") as [th|] eqn:Hth; simpl;
      [|left; by exists "thumbnail"].
    destruct (add_like_cases uid sid ti ar th db)
      as [->|[->|[(Hfk & ->)|(Hfk & _ & _ & _ & _ & ->)]]]; simpl.
    + right; left. done.
    + right; right; left. done.
    + do 3 right; left. by exists uid, sid.
    + do 5 right. by exists uid, sid, ti, ar, th.
Qed.

(** The ways [register] can end. *)
Lemma register_outcomes hashpw salt data db :
  register hashpw salt data db =
    (HTTPException 400 "Username and password required", db) ∨
  register hashpw salt data db = (duplicate_username, db) ∨
  register hashpw salt data db = (Raise AttributeError, db) ∨
  register hashpw salt data db = (Raise ValueError, db) ∨
  register hashpw salt data db = (Raise ProgrammingError, db) ∨
  register hashpw salt data db = (Raise DataError, db) ∨
  (∃ name hashed,
     truthy name = true ∧
     Forall (λ u, User.username u ≠ name) (users db) ∧
     register hashpw salt data db =
       (Return success,
        with_user db (User.mk (users_id_seq db) name hashed))).
Proof.
  destruct (truthy (dict_get data "username")) eqn:Hu;
    [|left; apply register_requires_fields; by left].
  destruct (truthy (dict_get data "password")) eqn:Hp;
    [|left; apply register_requires_fields; by right].
  right. apply (register_after_test hashpw salt data db Hu Hp).
Qed.



(** X5. With distinct primary keys, a like posted for an integer account
    id and a track id without NUL leaves the rows of every other pair of
    account and track as they were, whatever way the call ends. *)
Theorem toggle_like_other_pairs data uid sid uid' sid' db :
  NoDup (LikedSong.id <$> liked_songs db) →
  data !! "user_id" = Some (JInt uid) →
  data !! "song_id" = Some (JStr sid) →
  has_nul sid = false →
  (uid', sid') ≠ (uid, sid) →
  likes_of (JInt uid') (JStr sid') (toggle_like data db).2 =
    likes_of (JInt uid') (JStr sid') db.
Proof.
  intros Hids Hu Hs _ Hne.
  assert (Hrow : ∀ row, like_matches (JInt uid) (JStr sid) row →
                        ¬ like_matches (JInt uid') (JStr sid') row).
  { intros row [Hu1 Hs1] [Hu' Hs']. destruct Hne.
    rewrite Hu1 in Hu'. rewrite Hs1 in Hs'. congruence. }
  destruct (toggle_like_outcomes data db)
    as [(k & _ & ->)|[->|[->|[(? & ? & _ & _ & _ & _ & ->)
       |[(u & s & row & Hu2 & Hs2 & Hhead & ->)
        |(u & s & ti & ar & th & Hu2 & Hs2 & _ & _ & _ & _ & _ & ->)]]]]];
    [done|done|done|done|..]; rewrite Hu in Hu2; rewrite Hs in Hs2;
    injection Hu2 as <-; injection Hs2 as <-; unfold likes_of; simpl.
  - apply head_filter_Some in Hhead as (l1 & l2 & Hl & Hm & _).
    rewrite Hl in Hids |- *. rewrite delete_by_id by done.
    symmetry. apply filter_delete_other. by apply Hrow.
  - rewrite filter_app, filter_cons.
    destruct (decide (like_matches (JInt uid') (JStr sid') _)) as [Hm|_];
      [|by rewrite app_nil_r].
    destruct (Hrow (LikedSong.mk (liked_songs_id_seq db) (JInt uid) (JStr sid)
                      (as_text ti) (as_text ar) (as_text th)));
      [by split|done].
Qed.

(** Account 1 unlikes ["t1"] in [doubled_db]: its row of ["t2"] stays. *)
Lemma toggle_like_other_pairs_witness :
  likes_of (JInt 1) (JStr "t2")
    (toggle_like (pair_only 1 "t1") doubled_db).2 =
  likes_of (JInt 1) (JStr "t2") doubled_db.
Proof.
  apply (toggle_like_other_pairs (pair_only 1 "t1") 1 "t1");
    [apply (wf_like_ids _ wf_doubled_db)|reflexivity|reflexivity|reflexivity
    |discriminate].
Defined.

(** X6. A like body with an integer ["user_id"], a ["song_id"] string
    without NUL and one of ["title"], ["artist"], ["thumbnail"] missing is
    served when the pair has a row (the row is deleted, the answer is
    ["unliked"]); when the pair has no row it ends in a [KeyError] for a
    missing key and changes nothing. *)
Theorem toggle_like_missing_metadata data uid sid db :
  data !! "user_id" = Some (JInt uid) →
  data !! "song_id" = Some (JStr sid) →
  has_nul sid = false →
  data !! "title" = None ∨ data !! "artist" = None ∨
    data !! "thumbnail" = None →
  (likes_of (JInt uid) (JStr sid) db ≠ [] →
     (toggle_like data db).1 = Return unliked ∧
     length (liked_songs (toggle_like data db).2) < length (liked_songs db)) ∧
  (likes_of (JInt uid) (JStr sid) db = [] →
     ∃ k : string, k ∈ ["title"; "artist"; "thumbnail"] ∧ data !! k = None ∧
          toggle_like data db = (Raise (KeyError k), db)).
Proof.
  intros Hu Hs _ Hmissing. split.
  - intros Hsome.
    destruct (head (likes_of (JInt uid) (JStr sid) db)) as [row|] eqn:Hhead;
      [|by apply head_filter_None in Hhead].
    rewrite (toggle_like_found data (JInt uid) (JStr sid) row db Hu Hs Hhead).
    split; [done|]. simpl.
    apply head_filter_Some in Hhead as (l1 & l2 & -> & _ & _).
    rewrite filter_app, filter_cons.
    destruct (decide (LikedSong.id row ≠ LikedSong.id row)); [done|].
    rewrite !length_app. simpl.
    pose proof (length_filter (λ l, LikedSong.id l ≠ LikedSong.id row) l1).
    pose proof (length_filter (λ l, LikedSong.id l ≠ LikedSong.id row) l2).
    lia.
  - intros Hnone.
    unfold toggle_like, mbind, Handler_bind, subscript, first_like.
    rewrite Hu, Hs. simpl. unfold likes_of in Hnone. rewrite Hnone. simpl.
    destruct (data !! "title") as [ti|] eqn:Ht; simpl;
      [|exists "title"; split; [repeat constructor|done]].
    destruct (data !! "artist") as [ar|] eqn:Ha; simpl;
      [|exists "artist"; split; [repeat constructor|done]].
    destruct (data !! "thumbnail") as [th|] eqn:Hth; simpl;
      [|exists "thumbnail"; split; [repeat constructor|done]].
    by destruct Hmissing as [?|[?|?]].
Qed.

(** The body [{"user_id": 1, "song_id": "t1"}], with and without a row. *)
Lemma toggle_like_missing_metadata_witness :
  (toggle_like (pair_only 1 "t1") alice_likes_db).1 = Return unliked ∧
  ∃ k, toggle_like (pair_only 1 "t1") (alice_db "h") =
         (Raise (KeyError k), alice_db "h").
Proof.
  destruct (toggle_like_missing_metadata (pair_only 1 "t1") 1 "t1"
              alice_likes_db) as [Hrow _];
    [reflexivity|reflexivity|reflexivity|by left|].
  destruct (toggle_like_missing_metadata (pair_only 1 "t1") 1 "t1"
              (alice_db "h")) as [_ Hnone];
    [reflexivity|reflexivity|reflexivity|by left|].
  split.
  - apply Hrow. discriminate.
  - destruct (Hnone eq_refl) as (k & _ & _ & Hk). by exists k.
Defined.

(** ** Invariants along any sequence of requests *)

Lemma references_user_mono uid db db' :
  (∀ u, u ∈ users db → u ∈ users db') →
  references_user uid db = true → references_user uid db' = true.
Proof.
  intros Hsub. unfold references_user.
  rewrite !orb_true_iff, !bool_decide_eq_true.
  intros [?|Hex]; [by left|right].
  apply Exists_exists in Hex as (u & Hu & Heq).
  apply Exists_exists. exists u. split; [by apply Hsub|done].
Qed.

Lemma serve_users_extend hashpw checkpw r db :
  ∃ more, users (serve hashpw checkpw r db) = users db ++ more.
Proof.
  destruct r; simpl.
  - destruct (register_outcomes hashpw salt data db)
      as [->|[->|[->|[->|[->|[->|(name & p & _ & _ & ->)]]]]]];
      try (exists []; by rewrite app_nil_r).
    by eexists.
  - rewrite login_session. exists []. by rewrite app_nil_r.
  - rewrite toggle_like_users. exists []. by rewrite app_nil_r.
  - exists []. by rewrite app_nil_r.
Qed.

Lemma run_users_extend hashpw checkpw rs db :
  ∃ more, users (run hashpw checkpw rs db) = users db ++ more.
Proof.
  revert db. induction rs as [|r rs IH]; intros db; simpl.
  - exists []. by rewrite app_nil_r.
  - destruct (serve_users_extend hashpw checkpw r db) as [m1 H1].
    destruct (IH (serve hashpw checkpw r db)) as [m2 H2].
    exists (m1 ++ m2). by rewrite H2, H1, app_assoc.
Qed.

Lemma serve_fk_integrity hashpw checkpw r db :
  fk_integrity db → fk_integrity (serve hashpw checkpw r db).
Proof.
  intros Hfk. destruct r; simpl.
  - destruct (register_outcomes hashpw salt data db)
      as [->|[->|[->|[->|[->|[->|(name & p & _ & _ & ->)]]]]]]; try done.
    unfold fk_integrity in *. simpl.
    eapply Forall_impl; [exact Hfk|]. intros l.
    apply references_user_mono. simpl. intros u Hu.
    apply elem_of_app. by left.
  - by rewrite login_session.
  - destruct (toggle_like_outcomes data db)
      as [(k & _ & ->)|[->|[->|[(? & ? & _ & _ & _ & _ & ->)
         |[(u & s & row & _ & _ & _ & ->)
          |(u & s & ti & ar & th & _ & _ & _ & _ & _ & _ & Href & ->)]]]]];
      try done; unfold fk_integrity in *; simpl.
    + rewrite Forall_forall in Hfk. apply Forall_forall.
      intros l [_ Hl]%list_elem_of_filter. by apply Hfk.
    + apply Forall_app. split; [done|]. by constructor.
  - done.
Qed.

Lemma serve_usernames_truthy hashpw checkpw r db :
  Forall (λ u, truthy (User.username u) = true) (users db) →
  Forall (λ u, truthy (User.username u) = true)
    (users (serve hashpw checkpw r db)).
Proof.
  intros Hall. destruct r; simpl.
  - destruct (register_outcomes hashpw salt data db)
      as [->|[->|[->|[->|[->|[->|(name & p & Hname & _ & ->)]]]]]]; try done.
    simpl. apply Forall_app. split; [done|]. by constructor.
  - by rewrite login_session.
  - by rewrite toggle_like_users.
  - done.
Qed.

(** X7. Accounts are only ever appended: after any sequence of requests the
    [users] table starts with the rows it had, unchanged and in the same
    order. *)
Theorem accounts_append_only hashpw checkpw rs db :
  ∃ more, users (run hashpw checkpw rs db) = users db ++ more.
Proof. apply run_users_extend. Qed.

(** X8. Every store reached from the empty one by a sequence of requests
    has distinct account ids, distinct usernames, distinct like ids, all ids
    below their sequences, only truthy usernames, and in every row of
    [liked_songs] a [user_id] that is NULL or the id of an account. *)
Theorem reachable_store_invariants hashpw checkpw rs :
  wf (run hashpw checkpw rs empty_db) ∧
  fk_integrity (run hashpw checkpw rs empty_db) ∧
  Forall (λ u, truthy (User.username u) = true)
    (users (run hashpw checkpw rs empty_db)).
Proof.
  split; [apply run_wf, wf_empty_db|].
  assert (Hgen : ∀ db,
    fk_integrity db ∧ Forall (λ u, truthy (User.username u) = true) (users db) →
    fk_integrity (run hashpw checkpw rs db) ∧
    Forall (λ u, truthy (User.username u) = true)
      (users (run hashpw checkpw rs db))).
  { induction rs as [|r rs IH]; intros db [Hfk Hnames]; [done|].
    simpl. apply IH. split.
    - by apply serve_fk_integrity.
    - by apply serve_usernames_truthy. }
  apply Hgen. split; constructor.
Qed.

(** X9. In a store where every like references an account, [get_liked] for
    an id that names no account returns the empty list, not an error. *)
Theorem get_liked_unknown_account user_id db :
  fk_integrity db →
  ¬ account_exists user_id db →
  get_liked user_id db = (Return [], db).
Proof.
  intros Hfk Hnone. rewrite get_liked_eq.
  replace (rows_of user_id db) with (@nil LikedSong.t); [done|].
  symmetry. unfold rows_of.
  destruct (filter _ (liked_songs db)) as [|l rest] eqn:Hf; [done|].
  assert (l ∈ filter (λ l, LikedSong.user_id l = JInt user_id) (liked_songs db))
    as [Hl Hin]%list_elem_of_filter by (rewrite Hf; left).
  unfold fk_integrity in Hfk. rewrite Forall_forall in Hfk.
  specialize (Hfk l Hin). rewrite Hl in Hfk.
  by apply references_user_int in Hfk.
Qed.

(** The likes of account 9 in a store with account 1 only. *)
Lemma get_liked_unknown_account_witness :
  get_liked 9 alice_likes_db = (Return [], alice_likes_db).
Proof.
  apply get_liked_unknown_account.
  - repeat constructor.
  - intros [[=]|[]%Exists_nil]%Exists_cons.
Defined.

(** Rows with one primary key are one row. *)
Lemma same_id_same_row (rows : list LikedSong.t) l l' :
  NoDup (LikedSong.id <$> rows) →
  l ∈ rows → l' ∈ rows → LikedSong.id l = LikedSong.id l' → l = l'.
Proof.
  induction rows as [|r rows IH]; simpl; [by intros _ ?%elem_of_nil|].
  intros [Hr Hrows]%NoDup_cons
    [->|Hl]%elem_of_cons [->|Hl']%elem_of_cons Hid; try done.
  - destruct Hr. rewrite Hid. by apply list_elem_of_fmap_2.
  - destruct Hr. rewrite <- Hid. by apply list_elem_of_fmap_2.
  - by apply IH.
Qed.

Lemma serve_likes_fresh hashpw checkpw r db l :
  l ∈ liked_songs (serve hashpw checkpw r db) →
  l ∈ liked_songs db ∨ LikedSong.id l = liked_songs_id_seq db.
Proof.
  destruct r; simpl.
  - destruct (register_outcomes hashpw salt data db)
      as [->|[->|[->|[->|[->|[->|(name & p & _ & _ & ->)]]]]]]; by left.
  - rewrite login_session. by left.
  - destruct (toggle_like_outcomes data db)
      as [(k & _ & ->)|[->|[->|[(? & ? & _ & _ & _ & _ & ->)
         |[(u & s & row & _ & _ & _ & ->)
          |(u & s & ti & ar & th & _ & _ & _ & _ & _ & _ & _ & ->)]]]]];
      simpl; try by left.
    + intros [_ Hl]%list_elem_of_filter. by left.
    + intros [Hl|[->|[]%elem_of_nil]%elem_of_cons]%elem_of_app;
        [by left|by right].
  - by left.
Qed.

Lemma serve_like_seq hashpw checkpw r db :
  (liked_songs_id_seq db ≤ liked_songs_id_seq (serve hashpw checkpw r db))%Z.
Proof.
  destruct r; simpl.
  - destruct (register_outcomes hashpw salt data db)
      as [->|[->|[->|[->|[->|[->|(name & p & _ & _ & ->)]]]]]]; done.
  - by rewrite login_session.
  - destruct (toggle_like_outcomes data db)
      as [(k & _ & ->)|[->|[->|[(? & ? & _ & _ & _ & _ & ->)
         |[(u & s & row & _ & _ & _ & ->)
          |(u & s & ti & ar & th & _ & _ & _ & _ & _ & _ & _ & ->)]]]]];
      simpl; lia.
  - done.
Qed.

Lemma run_likes_fresh hashpw checkpw rs db l :
  l ∈ liked_songs (run hashpw checkpw rs db) →
  l ∈ liked_songs db ∨ (liked_songs_id_seq db ≤ LikedSong.id l)%Z.
Proof.
  revert db. induction rs as [|r rs IH]; intros db; simpl; [by left|].
  intros [Hl|Hl]%IH.
  - apply (serve_likes_fresh hashpw checkpw) in Hl as [?|Heq]; [by left|right; lia].
  - right. pose proof (serve_like_seq hashpw checkpw r db). lia.
Qed.

(** X10. Rows of [liked_songs] are never updated and their ids never used
    again: after any sequence of requests, a row that has the id of a row
    the table had at the start is that very row, with the title, artist and
    thumbnail it was inserted with. *)
Theorem liked_rows_immutable hashpw checkpw rs db l l0 :
  wf db →
  l0 ∈ liked_songs db →
  l ∈ liked_songs (run hashpw checkpw rs db) →
  LikedSong.id l = LikedSong.id l0 →
  l = l0.
Proof.
  intros Hwf Hl0 Hl Hid.
  apply run_likes_fresh in Hl as [Hl|Hfresh].
  - by apply (same_id_same_row (liked_songs db)); [apply Hwf|..].
  - pose proof (wf_likes_seq _ Hwf) as Hseq.
    rewrite Forall_forall in Hseq. specialize (Hseq l0 Hl0). lia.
Qed.

(** The row of ["t1"] of [alice_likes_db] after account 1 also liked
    ["t2"]: the row with id 1 is still the one inserted first. *)
Lemma liked_rows_immutable_witness :
  ∃ l,
    l ∈ liked_songs
          (run toy_hashpw toy_checkpw
             [Like (like_body 1 "t2" (JStr "D") (JStr "E") (JStr "F"))]
             alice_likes_db) ∧
    LikedSong.id l = 1%Z ∧
    l = LikedSong.mk 1 (JInt 1) (JStr "t1") (JStr "A") (JStr "B") (JStr "C").
Proof.
  exists (LikedSong.mk 1 (JInt 1) (JStr "t1") (JStr "A") (JStr "B") (JStr "C")).
  assert (Hin : LikedSong.mk 1 (JInt 1) (JStr "t1") (JStr "A") (JStr "B") (JStr "C")
                ∈ liked_songs
                    (run toy_hashpw toy_checkpw
                       [Like (like_body 1 "t2" (JStr "D") (JStr "E") (JStr "F"))]
                       alice_likes_db)) by (vm_compute; left).
  split; [exact Hin|]. split; [reflexivity|].
  apply (liked_rows_immutable toy_hashpw toy_checkpw
           [Like (like_body 1 "t2" (JStr "D") (JStr "E") (JStr "F"))]
           alice_likes_db);
    [solve_wf|by left|exact Hin|reflexivity].
Defined.

(** ** Likes and their listing *)

(** X11. With distinct primary keys and at most one row per pair, for a
    body with an integer account id and a track id without NUL: when the
    like is answered ["liked"], the listing of the account contains the
    record of the track with the title, artist and thumbnail of the body as
    the text columns hold them; when it is answered ["unliked"], the listing
    of the account has no record of the track any more. *)
Theorem like_then_listed data uid sid ti ar th db :
  NoDup (LikedSong.id <$> liked_songs db) →
  at_most_one_like db →
  like_fields data uid sid ti ar th →
  has_nul sid = false →
  ∃ entries,
    get_liked uid (toggle_like data db).2 =
      (Return entries, (toggle_like data db).2) ∧
    ((toggle_like data db).1 = Return liked →
       song_dict (JStr sid) (as_text ti) (as_text ar) (as_text th) ∈ entries) ∧
    ((toggle_like data db).1 = Return unliked →
       ∀ e, e ∈ entries → e !! "id" ≠ Some (JStr sid)).
Proof.
  intros Hids Hone [Hu Hs Ht Ha Hth] _.
  exists (liked_entry <$> rows_of uid (toggle_like data db).2).
  split; [apply get_liked_eq|].
  destruct (toggle_like_outcomes data db)
    as [(k & _ & ->)|[->|[->|[(? & ? & _ & _ & _ & _ & ->)
       |[(u & s & row & Hu2 & Hs2 & Hhead & ->)
        |(u & s & ti' & ar' & th' & Hu2 & Hs2 & Ht2 & Ha2 & Hth2 & _ & _ & ->)]]]]];
    [done|done|done|done|..]; rewrite Hu in Hu2; rewrite Hs in Hs2;
    injection Hu2 as <-; injection Hs2 as <-; cbn [fst snd].
  - split; [by intros [= ?%liked_ne_unliked]|]. intros _ e.
    intros (l & -> & [Hl Hin]%list_elem_of_filter)%list_elem_of_fmap.
    simpl in Hin. unfold liked_entry. rewrite lookup_insert_eq. intros [= Hsid].
    pose proof (Hone (JInt uid) (JStr sid)) as Hlen.
    apply head_filter_Some in Hhead as (l1 & l2 & Hdb & Hrow & _).
    unfold likes_of in Hlen. rewrite Hdb in Hids, Hlen, Hin.
    rewrite delete_by_id in Hin by done.
    rewrite filter_delete_length in Hlen by done.
    assert (l ∈ filter (like_matches (JInt uid) (JStr sid)) (l1 ++ l2)) as Hl'
      by (by apply list_elem_of_filter).
    destruct (filter (like_matches (JInt uid) (JStr sid)) (l1 ++ l2));
      [by apply elem_of_nil in Hl'|simpl in Hlen; lia].
  - rewrite Ht in Ht2. rewrite Ha in Ha2. rewrite Hth in Hth2.
    injection Ht2 as <-. injection Ha2 as <-. injection Hth2 as <-.
    split; [|by intros [= ?%liked_ne_unliked]]. intros _.
    apply list_elem_of_fmap.
    exists (LikedSong.mk (liked_songs_id_seq db) (JInt uid) (JStr sid)
              (as_text ti) (as_text ar) (as_text th)).
    split; [done|]. unfold rows_of. simpl.
    apply list_elem_of_filter. split; [done|].
    apply elem_of_app. right. left.
Qed.

(** Account 1 likes ["t2"] with the number 7 as title, from
    [alice_likes_db]: the listing shows the title ["7"]. *)
Lemma like_then_listed_witness :
  ∃ entries,
    get_liked 1
      (toggle_like (like_body 1 "t2" (JInt 7) (JStr "E") (JStr "F"))
         alice_likes_db).2 =
      (Return entries,
       (toggle_like (like_body 1 "t2" (JInt 7) (JStr "E") (JStr "F"))
          alice_likes_db).2) ∧
    song_dict (JStr "t2") (JStr "7") (JStr "E") (JStr "F") ∈ entries.
Proof.
  destruct (like_then_listed
              (like_body 1 "t2" (JInt 7) (JStr "E") (JStr "F"))
              1 "t2" (JInt 7) (JStr "E") (JStr "F") alice_likes_db)
    as (entries & Heq & Hliked & _).
  - repeat constructor. apply not_elem_of_nil.
  - intros u s. unfold likes_of. simpl. rewrite filter_cons.
    destruct (decide _); simpl; lia.
  - apply like_body_fields.
  - reflexivity.
  - exists entries. split; [exact Heq|]. by apply Hliked.
Defined.

(** X12. A like whose ["user_id"] is null needs no account: with a track
    id and metadata the driver can bind, an id left in the sequence and no
    row for the track under the NULL account, it inserts a row with a NULL
    [user_id], the metadata as text, and answers ["liked"], whatever the
    accounts; no listing [get_liked] returns, for any account id, shows
    that row. *)
Theorem toggle_like_null_account data sid ti ar th db :
  data !! "user_id" = Some JNull →
  data !! "song_id" = Some (JStr sid) →
  data !! "title" = Some ti →
  data !! "artist" = Some ar →
  data !! "thumbnail" = Some th →
  has_nul sid = false →
  bindable ti = true → bindable ar = true → bindable th = true →
  int4 (liked_songs_id_seq db) = true →
  likes_of JNull (JStr sid) db = [] →
  toggle_like data db =
    (Return liked,
     next_like_id (with_likes db
       (liked_songs db ++
        [LikedSong.mk (liked_songs_id_seq db) JNull (JStr sid)
           (as_text ti) (as_text ar) (as_text th)]))) ∧
  ∀ user_id,
    (get_liked user_id (toggle_like data db).2).1 = (get_liked user_id db).1.
Proof.
  intros Hu Hs Ht Ha Hth Hnul Hbt Hba Hbth Hseq Hnone.
  assert (Heq : toggle_like data db =
    (Return liked,
     next_like_id (with_likes db
       (liked_songs db ++
        [LikedSong.mk (liked_songs_id_seq db) JNull (JStr sid)
           (as_text ti) (as_text ar) (as_text th)])))).
  { unfold toggle_like, mbind, Handler_bind, subscript, first_like.
    rewrite Hu, Hs. simpl. unfold likes_of in Hnone. rewrite Hnone. simpl.
    rewrite Ht, Ha, Hth. simpl. unfold add_like. simpl.
    by rewrite Hnul, Hbt, Hba, Hbth, Hseq. }
  split; [done|]. intros user_id. rewrite Heq, !get_liked_eq. cbn [fst snd].
  f_equal. f_equal. unfold rows_of. simpl.
  rewrite filter_app, filter_cons. simpl.
  destruct (decide (JNull = JInt user_id)); [done|]. by rewrite app_nil_r.
Qed.

(** A like with a null ["user_id"] on the empty store. *)
Lemma toggle_like_null_account_witness :
  (toggle_like (null_like_body "t1" (JStr "A") (JStr "B") (JStr "C"))
     empty_db).1 = Return liked.
Proof.
  destruct (toggle_like_null_account
              (null_like_body "t1" (JStr "A") (JStr "B") (JStr "C"))
              "t1" (JStr "A") (JStr "B") (JStr "C") empty_db)
    as [Heq _]; [reflexivity..|].
  by rewrite Heq.
Defined.

(** ** Search, and items without a record *)

Lemma comprehension_PStr xs entries :
  Forall (λ x, ∃ s, x = PStr s) xs →
  comprehension song_entry xs = Return entries → entries = [].
Proof.
  destruct xs as [|x xs]; simpl; [by intros _ [= <-]|].
  intros [[s ->] _]%Forall_cons. done.
Qed.

Lemma comprehension_failed {A B} (f : A → outcome B) xs x :
  x ∈ xs → failed (f x) → failed (comprehension f xs).
Proof.
  induction xs as [|a xs IH]; [by intros ?%elem_of_nil|].
  intros [->|Hin]%elem_of_cons Hx; simpl.
  - by destruct (f a).
  - destruct (f a); simpl; try done.
    specialize (IH Hin Hx). by destruct (comprehension f xs).
Qed.

Lemma song_entry_failed s : (∀ e, ¬ track_entry s e) → failed (song_entry s).
Proof.
  intros Hno. destruct (song_entry s) as [e| |] eqn:He; try done.
  apply song_entry_Return in He. by destruct (Hno e).
Qed.

Lemma bare_item_no_entry e : ¬ track_entry bare_item e.
Proof.
  unfold bare_item. intros He. inversion He; subst.
  match goal with
  | Hth : assoc "thumbnails" _ = Some (PList ?thumbs),
    Hlast : last ?thumbs = Some _ |- _ =>
      simpl in Hth; injection Hth as <-; discriminate Hlast
  end.
Qed.

(** X13. [search] does not truncate: when the client returns a list whose
    items all have a record, the answer is the records of all of them, in
    the client's order; and a non-empty answer is always that. *)
Theorem search_returns_all yt q :
  (∀ client results entries,
     yt = Some client →
     YTMusic.search client q = Return (PList results) →
     Forall2 track_entry results entries →
     search yt q = Return (Songs entries) ∧ length entries = length results) ∧
  (∀ entries,
     search yt q = Return (Songs entries) → entries ≠ [] →
     ∃ client results,
       yt = Some client ∧
       YTMusic.search client q = Return (PList results) ∧
       Forall2 track_entry results entries).
Proof.
  split.
  - intros client results entries -> Hres Hall.
    split; [|symmetry; by eapply Forall2_length].
    unfold search, mbind, outcome_bind. rewrite Hres; cbv beta iota.
    simpl iterate. cbv beta iota.
    assert (Hc : comprehension song_entry results = Return entries).
    { apply comprehension_Return. eapply Forall2_impl; [exact Hall|].
      intros x y. apply song_entry_Return. }
    by rewrite Hc.
  - intros entries Hs Hne. destruct yt as [client|]; [|done].
    unfold search, mbind, outcome_bind in Hs.
    destruct (YTMusic.search client q) as [results| |] eqn:Hres;
      cbv beta iota in Hs; simpl try_except in Hs;
      try (injection Hs as <-; done).
    destruct results as [| | |s|results|fields]; simpl iterate in Hs;
      cbv beta iota in Hs; simpl try_except in Hs;
      try (injection Hs as <-; done).
    + destruct (comprehension song_entry _) as [ys| |] eqn:Hc;
        cbv beta iota in Hs; simpl try_except in Hs; injection Hs as <-;
        try done.
      by apply comprehension_chars in Hc.
    + destruct (comprehension song_entry results) as [ys| |] eqn:Hc;
        cbv beta iota in Hs; simpl try_except in Hs; injection Hs as <-;
        try done.
      exists client, results. split; [done|]. split; [done|].
      apply comprehension_Return in Hc.
      eapply Forall2_impl; [exact Hc|]. intros x y. apply song_entry_Return.
    + destruct (comprehension song_entry _) as [ys| |] eqn:Hc;
        cbv beta iota in Hs; simpl try_except in Hs; injection Hs as <-;
        try done.
      apply comprehension_PStr in Hc; [done|].
      apply Forall_fmap, Forall_forall. intros kv _. by eexists.
Qed.

(** A search that finds twenty items returns twenty records. *)
Lemma search_returns_all_witness :
  ∃ entries,
    search (Some twenty_client) "abc" = Return (Songs entries) ∧
    length entries = 20.
Proof.
  destruct (search_returns_all (Some twenty_client) "abc") as [Hall _].
  exists (chart_entry <$> (sixteen ++ [17; 18; 19; 20]%Z)).
  destruct (Hall twenty_client
              (chart_item <$> (sixteen ++ [17; 18; 19; 20]%Z))
              (chart_entry <$> (sixteen ++ [17; 18; 19; 20]%Z))
              eq_refl eq_refl) as [Heq _].
  - simpl. repeat (constructor; [by eapply track_entry_intro|]). constructor.
  - split; [exact Heq|reflexivity].
Defined.

(** X14. One item without a record empties the whole answer: when an item
    of the search results, or one of the first fifteen items of the chart,
    lacks a key, an artist or a thumbnail, the route returns the empty list
    and not the records of the other items. *)
Theorem one_bad_item_empties_answer client bad :
  (∀ e, ¬ track_entry bad e) →
  (∀ q results,
     YTMusic.search client q = Return (PList results) →
     bad ∈ results →
     search (Some client) q = Return (Songs [])) ∧
  (∀ charts by_kind songs,
     YTMusic.get_charts client "IN" = Return charts →
     getitem charts "songs" = Return by_kind →
     getitem by_kind "items" = Return (PList songs) →
     bad ∈ take 15 songs →
     trending (Some client) = Return (Songs [])).
Proof.
  intros Hbad. apply song_entry_failed in Hbad. split.
  - intros q results Hres Hin.
    unfold search, mbind, outcome_bind. rewrite Hres; cbv beta iota.
    simpl iterate. cbv beta iota.
    pose proof (comprehension_failed song_entry results bad Hin Hbad) as Hf.
    by destruct (comprehension song_entry results).
  - intros charts by_kind songs Hcharts Hkind Hitems Hin.
    unfold trending, mbind, outcome_bind.
    rewrite Hcharts; cbv beta iota. rewrite Hkind; cbv beta iota.
    rewrite Hitems; cbv beta iota. simpl slice_to. cbv beta iota.
    simpl iterate. cbv beta iota.
    pose proof (comprehension_failed song_entry (take 15 songs) bad Hin Hbad)
      as Hf.
    by destruct (comprehension song_entry (take 15 songs)).
Qed.

(** Two items, the second without thumbnails: both routes return []. *)
Lemma one_bad_item_empties_answer_witness :
  search (Some flawed_client) "abc" = Return (Songs []) ∧
  trending (Some flawed_client) = Return (Songs []).
Proof.
  destruct (one_bad_item_empties_answer flawed_client bare_item
              bare_item_no_entry) as [Hsearch Htrending].
  split.
  - apply (Hsearch "abc" [chart_item 1; bare_item] eq_refl).
    right. left.
  - apply (Htrending _ _ [chart_item 1; bare_item] eq_refl eq_refl eq_refl).
    right. left.
Defined.

(** ** Start-up configuration *)

Lemma append_assoc (a b c : string) :
  String.append (String.append a b) c = String.append a (String.append b c).
Proof.
  induction a as [|x a IH]; [done|].
  change (String x (String.append (String.append a b) c) =
          String x (String.append a (String.append b c))).
  by rewrite IH.
Qed.

Lemma prefix_cons c p d s :
  String.prefix (String c p) (String d s) =
    if Ascii.ascii_dec c d then String.prefix p s else false.
Proof. reflexivity. Qed.

Lemma append_cons c p r :
  String.append (String c p) r = String c (String.append p r).
Proof. reflexivity. Qed.

Lemma prefix_append (p s : string) :
  String.prefix p s = true ↔ ∃ r, s = String.append p r.
Proof.
  revert s. induction p as [|c p IH]; intros s.
  - split; [intros _; by exists s|intros _; by destruct s].
  - destruct s as [|d s].
    + split; [intros H; discriminate H|].
      intros [r Hr]. rewrite append_cons in Hr. discriminate Hr.
    + rewrite prefix_cons. destruct (Ascii.ascii_dec c d) as [->|Hne].
      * rewrite IH. split; intros [r Hr]; exists r.
        -- by rewrite append_cons, Hr.
        -- rewrite append_cons in Hr. by injection Hr.
      * split; [intros H; discriminate H|].
        intros [r Hr]. rewrite append_cons in Hr. injection Hr as Hcd _.
        by destruct Hne.
Qed.

Lemma contains_unfold (sub s : string) :
  contains sub s =
    String.prefix sub s ||
    match s with
    | EmptyString => false
    | String _ rest => contains sub rest
    end.
Proof. by destruct s. Qed.

(** [contains] is the substring test. *)
Lemma contains_append (sub s : string) :
  contains sub s = true ↔
  ∃ a b, s = String.append a (String.append sub b).
Proof.
  induction s as [|c s IH]; rewrite contains_unfold, orb_true_iff.
  - split.
    + intros [[r Hr]%prefix_append|?]; [|done]. by exists "", r.
    + intros ([|x a] & b & Heq); [|done]. left.
      apply prefix_append. by exists b.
  - rewrite IH. split.
    + intros [[r Hr]%prefix_append|(a & b & ->)].
      * by exists "", r.
      * by exists (String c a), b.
    + intros ([|x a] & b & Heq).
      * left. apply prefix_append. by exists b.
      * right. injection Heq as -> ->. by exists a, b.
Qed.

Lemma replace_first_prefix (old new s : string) :
  String.prefix old s = true →
  replace_first old new s =
    String.append new (string_drop (String.length old) s).
Proof.
  intros Hp.
  transitivity
    (if String.prefix old s
     then String.append new (string_drop (String.length old) s)
     else match s with
          | EmptyString => EmptyString
          | String c rest => String c (replace_first old new rest)
          end); [by destruct s|by rewrite Hp].
Qed.

(** X15. The url handed to [create_engine] never starts with
    ["postgres://"]: such a url has exactly that scheme replaced by
    ["postgresql://"] and the rest kept; a non-empty url with another start
    is passed as it is, even when ["postgres://"] occurs further in; so the
    result, fed back as the environment value, is a fixed point. *)
Theorem database_url_scheme fallback env :
  String.prefix "postgres://" (database_url fallback env) = false ∧
  (∀ rest,
     env = Some (String.append "postgres://" rest) →
     database_url fallback env = String.append "postgresql://" rest) ∧
  (∀ u,
     env = Some u → u ≠ "" → String.prefix "postgres://" u = false →
     database_url fallback env = u) ∧
  (∀ other,
     database_url fallback env ≠ "" →
     database_url other (Some (database_url fallback env)) =
       database_url fallback env).
Proof.
  assert (Hfix : ∀ fb e, String.prefix "postgres://" (database_url fb e) = false).
  { intros fb e. unfold database_url.
    set (url := match e with
                | Some u => if String.eqb u "" then fb else u
                | None => fb
                end).
    destruct (String.prefix "postgres://" url) eqn:Hp.
    - destruct (String.eqb_spec url "") as [He|He].
      { rewrite He in Hp. discriminate Hp. }
      cbn [negb andb]. rewrite replace_first_prefix by done.
      apply prefix_append in Hp as [r ->]. reflexivity.
    - by rewrite andb_false_r. }
  assert (Hkeep : ∀ fb u, u ≠ "" → String.prefix "postgres://" u = false →
                          database_url fb (Some u) = u).
  { intros fb u Hne Hp. unfold database_url.
    destruct (String.eqb_spec u ""); [done|]. by rewrite Hp, andb_false_r. }
  split; [apply Hfix|]. split; [|split].
  - intros rest ->. unfold database_url.
    assert (Hp : String.prefix "postgres://"
                   (String.append "postgres://" rest) = true)
      by (apply prefix_append; by exists rest).
    destruct (String.eqb_spec (String.append "postgres://" rest) "")
      as [He|He]; [discriminate He|].
    rewrite Hp. cbn [negb andb].
    by rewrite replace_first_prefix.
  - intros u -> Hne Hp. by apply Hkeep.
  - intros other Hne. by apply Hkeep.
Qed.

(** A url as some platforms provide it, and one whose path holds the old
    scheme. *)
Lemma database_url_scheme_witness :
  database_url "fb" (Some "postgres://u:p@host/db") = "postgresql://u:p@host/db" ∧
  database_url "fb" (Some "sqlite:///postgres://x") = "sqlite:///postgres://x".
Proof.
  destruct (database_url_scheme "fb" (Some "postgres://u:p@host/db"))
    as (_ & Hfix & _).
  destruct (database_url_scheme "fb" (Some "sqlite:///postgres://x"))
    as (_ & _ & Hkeep & _).
  split.
  - apply (Hfix "u:p@host/db"). reflexivity.
  - apply (Hkeep "sqlite:///postgres://x"); [reflexivity|discriminate|reflexivity].
Defined.

(** X16. [connect_args] asks for SSL exactly when ["render.com"] occurs in
    the url; the second test, for [".onrender.com"], never decides, and a
    url without ["render.com"] gets no argument at all. *)
Theorem connect_args_render url :
  (connect_args url = {[ "sslmode" := "require" ]} ↔
   ∃ a b, url = String.append a (String.append "render.com" b)) ∧
  (connect_args url ≠ {[ "sslmode" := "require" ]} → connect_args url = ∅) ∧
  (contains ".onrender.com" url = true → contains "render.com" url = true).
Proof.
  assert (Hsub : contains ".onrender.com" url = true →
                 contains "render.com" url = true).
  { intros (a & b & ->)%contains_append. apply contains_append.
    exists (String.append a ".on"), b.
    by rewrite append_assoc. }
  assert (Hne : ({[ "sslmode" := "require" ]} : gmap string string) ≠ ∅).
  { intros Heq. apply (f_equal (λ m : gmap string string, m !! "sslmode")) in Heq.
    by rewrite lookup_singleton_eq, lookup_empty in Heq. }
  split; [|split; [|done]].
  - rewrite <- contains_append. unfold connect_args.
    destruct (contains "render.com" url) eqn:Hr; simpl; [done|].
    destruct (contains ".onrender.com" url) eqn:Ho; simpl.
    + by specialize (Hsub eq_refl).
    + split; [by intros ?%symmetry%Hne|done].
  - unfold connect_args. by destruct (_ || _).
Qed.

(** A url of a Render host, and a local one. *)
Lemma connect_args_render_witness :
  connect_args "postgresql://u@db.oregon-postgres.render.com/x" =
    {[ "sslmode" := "require" ]} ∧
  connect_args "postgresql://u@localhost/x" = ∅.
Proof.
  destruct (connect_args_render "postgresql://u@db.oregon-postgres.render.com/x")
    as ([_ Hssl] & _).
  destruct (connect_args_render "postgresql://u@localhost/x")
    as (_ & Hnone & _).
  split.
  - apply Hssl. by exists "postgresql://u@db.oregon-postgres.", "/x".
  - apply Hnone. vm_compute. discriminate.
Defined.

(** ** The session dependency and the health route *)

(** The ways [login] can end; the store is never changed. *)
Lemma login_outcomes checkpw data db :
  (login checkpw data db).1 = Raise (KeyError "username") ∨
  (login checkpw data db).1 = Raise (KeyError "password") ∨
  (login checkpw data db).1 = Raise AttributeError ∨
  (login checkpw data db).1 = Raise ValueError ∨
  (login checkpw data db).1 = Raise ProgrammingError ∨
  (login checkpw data db).1 = invalid_credentials ∨
  (∃ a, a ∈ users db ∧ (login checkpw data db).1 = Return (identity a)).
Proof.
  unfold login, mbind, Handler_bind, subscript.
  destruct (data !! "username") as [name|]; simpl; [|by left].
  destruct (first_user_cases name db) as [->|[->| -> ]];
    [by do 4 right; left|by do 3 right; left|].
  destruct (head (filter (λ u, User.username u = name) (users db)))
    as [a|] eqn:Hhead; simpl; [|by do 5 right; left].
  destruct (data !! "password") as [password|]; simpl; [|by right; left].
  destruct password as [|b|z|p]; simpl; try by right; right; left.
  destruct (checkpw p (User.password a)) as [[|]|]; simpl.
  - do 6 right. exists a. split; [|done].
    apply head_filter_Some in Hhead as (l1 & l2 & -> & _ & _).
    apply elem_of_app. right. left.
  - by do 5 right; left.
  - by do 3 right; left.
Qed.

Lemma depends_get_db_503 {A} SessionLocal (handler : Handler A) :
  (∀ db, http_status (handler db).1 ≠ 503%Z) →
  http_status (depends_get_db SessionLocal handler) = 503%Z ↔
  SessionLocal = None.
Proof.
  intros Hnever. destruct SessionLocal as [factory|]; simpl.
  - split; [|done]. intros H. by destruct (Hnever (open_session factory)).
  - done.
Qed.

(** X17. The four routes that depend on [get_db] answer with status 503
    exactly when there is no session factory, whatever the request: the
    answer is then "Database service unavailable" before the body is looked
    at, and no handler produces a 503 of its own. *)
Theorem service_unavailable_iff hashpw checkpw SessionLocal :
  (∀ salt data,
     http_status (depends_get_db SessionLocal (register hashpw salt data)) =
       503%Z ↔ SessionLocal = None) ∧
  (∀ data,
     http_status (depends_get_db SessionLocal (login checkpw data)) = 503%Z ↔
     SessionLocal = None) ∧
  (∀ data,
     http_status (depends_get_db SessionLocal (toggle_like data)) = 503%Z ↔
     SessionLocal = None) ∧
  (∀ user_id,
     http_status (depends_get_db SessionLocal (get_liked user_id)) = 503%Z ↔
     SessionLocal = None) ∧
  (SessionLocal = None →
   ∀ A (handler : Handler A),
     depends_get_db SessionLocal handler =
       HTTPException 503 "Database service unavailable").
Proof.
  split; [|split; [|split; [|split]]].
  - intros salt data. apply depends_get_db_503. intros db.
    destruct (register_outcomes hashpw salt data db)
      as [->|[->|[->|[->|[->|[->|(name & p & _ & _ & ->)]]]]]]; done.
  - intros data. apply depends_get_db_503. intros db.
    destruct (login_outcomes checkpw data db)
      as [->|[->|[->|[->|[->|[->|(a & _ & ->)]]]]]]; done.
  - intros data. apply depends_get_db_503. intros db.
    destruct (toggle_like_outcomes data db)
      as [(k & _ & ->)|[->|[->|[(? & ? & _ & _ & _ & _ & ->)
         |[(? & ? & ? & _ & _ & _ & ->)
          |(? & ? & ? & ? & ? & _ & _ & _ & _ & _ & _ & _ & ->)]]]]]; done.
  - intros user_id. by apply depends_get_db_503.
  - by intros ->.
Qed.

(** A login without a factory, whatever the body. *)
Lemma service_unavailable_iff_witness :
  depends_get_db None (login toy_checkpw ∅) =
    HTTPException 503 "Database service unavailable".
Proof.
  destruct (service_unavailable_iff toy_hashpw toy_checkpw None)
    as (_ & _ & _ & _ & Hnone).
  exact (Hnone eq_refl _ (login toy_checkpw ∅)).
Defined.

(** X18. [health_check] reports ["degraded"] exactly when a probe it ran
    failed: the factory exists and [SELECT 1] failed, or the client exists
    and [get_charts] failed. Otherwise it reports ["healthy"], in particular
    with no database and no catalog client at all, when ["database"] reads
    ["disconnected"] and ["ytmusic"] reads ["unavailable"]. *)
Theorem health_check_status str SessionLocal yt :
  (health_check str SessionLocal yt !! "status" = Some "degraded" ↔
   (∃ factory, SessionLocal = Some factory ∧ failed (select_1 factory)) ∨
   (∃ client, yt = Some client ∧
              failed (YTMusic.get_charts client "IN"))) ∧
  (health_check str SessionLocal yt !! "status" ≠ Some "degraded" →
   health_check str SessionLocal yt !! "status" = Some "healthy") ∧
  (SessionLocal = None → yt = None →
   health_check str SessionLocal yt =
     <[ "status" := "healthy" ]>
     (<[ "database" := "disconnected" ]> {[ "ytmusic" := "unavailable" ]})).
Proof.
  split; [|split].
  - unfold health_check.
    destruct SessionLocal as [factory|], yt as [client|];
      try destruct (select_1 factory) eqn:Hdb;
      try destruct (YTMusic.get_charts client "IN") eqn:Hyt;
      rewrite ?lookup_insert_eq;
      (split;
       [intros Heq; try discriminate Heq;
        first [left; exists factory; by rewrite Hdb
              |right; exists client; by rewrite Hyt]
       |intros [(f & Hf & Hfail)|(c & Hc & Hfail)]; simplify_eq;
        rewrite ?Hdb, ?Hyt in Hfail; done]).
  - unfold health_check.
    destruct SessionLocal as [factory|], yt as [client|];
      try destruct (select_1 factory);
      try destruct (YTMusic.get_charts client "IN");
      rewrite ?lookup_insert_eq; done.
  - by intros -> ->.
Qed.

(** No database and no client: healthy; a factory whose probe fails:
    degraded. *)
Lemma health_check_status_witness :
  health_check (λ _, "boom") None None !! "status" = Some "healthy" ∧
  health_check (λ _, "boom") (Some down_factory) None !! "status" =
    Some "degraded".
Proof.
  destruct (health_check_status (λ _, "boom") None None) as (_ & Hok & _).
  destruct (health_check_status (λ _, "boom") (Some down_factory) None)
    as ([_ Hdeg] & _).
  split.
  - apply Hok. vm_compute. discriminate.
  - apply Hdeg. left. by exists down_factory.
Defined.
